(** * p5.pmath.vector: the [Vector] class of p5

    A shallow embedding of [src/p5/pmath/vector.py].

    - A [Vector] object is a record of its three attributes [x], [y], [z].
    - A method is a function of the object it is called on ([self]) that
      either raises a Python exception or returns a value together with the
      object as the method leaves it: attribute assignments are explicit
      state passing.
    - The class is written once over an interface [Number] of the scalar
      operations the source applies to the components (Python's [+], [-],
      [*], [/], comparisons, [abs], [math.sqrt]) and an interface [Trig] of
      the functions it takes from [math].  Two instances follow: IEEE
      binary64 (Rocq's primitive floats), on which the arithmetic of the
      class runs, and the real numbers with their trigonometry, where
      arithmetic is exact.
    - What Python itself raises is kept: [ZeroDivisionError] from [/] by a
      zero divisor (ints and floats alike), [ValueError] from [math.sqrt]
      and [math.acos] outside their domain.

    The components of a vector, the angles and the scalars are floats; an
    int of the source or of a doctest stands for the float it converts to.

    The properties come in four groups: those of the control flow, proved
    for every scalar type; those of the arithmetic, proved over the reals
    (no rounding, no overflow, no NaN: equality within floating tolerance
    is equality there); runs of the definitions on binary64, which show
    where rounding, overflow and division by zero depart from exact
    arithmetic; and the properties of the operators, of equality and of
    the magnitude that hold on binary64 as they stand.

    Not modelled: [lerp] and [distance] (they call [p5.pmath.utils], which
    is not part of the sources), [__repr__], Python ints that no float
    represents (the conversion rounds, or raises [OverflowError]) and
    [math.cos] and [math.sin] of an infinite argument (they raise
    [ValueError]; an angle is finite). *)

From Stdlib Require Import ZArith Bool String List.
From Stdlib Require Import Floats.
From Stdlib Require Import Reals Lra Psatz Lia.
Import ListNotations.

Set Implicit Arguments.

(** ** Exceptions and results *)

Inductive exn : Type :=
| ValueError
| TypeError
| ZeroDivisionError.

Inductive result (A : Type) : Type :=
| Ok (a : A)
| Raise (e : exn).

Arguments Ok {A} a.
Arguments Raise {A} e.

(** A computation over a state [S]: the object a method is called on, or
    the random source of a class method. *)
Definition St (S A : Type) : Type := S -> result (A * S).

Definition ret {S A : Type} (a : A) : St S A :=
  fun s => Ok (a, s).

Definition bind {S A B : Type} (m : St S A) (k : A -> St S B) : St S B :=
  fun s => match m s with
           | Ok (a, s') => k a s'
           | Raise e => Raise e
           end.

Definition raise {S A : Type} (e : exn) : St S A :=
  fun _ => Raise e.

(** A result that does not touch the state, e.g. a float division. *)
Definition lift {S A : Type} (r : result A) : St S A :=
  fun s => match r with
           | Ok a => Ok (a, s)
           | Raise e => Raise e
           end.

(** Sequencing of results outside a method. *)
Definition and_then {A B : Type} (r : result A) (k : A -> result B)
  : result B :=
  match r with
  | Ok a => k a
  | Raise e => Raise e
  end.

Declare Scope py_scope.
Delimit Scope py_scope with py.

Notation "a <-- r ;; k" := (and_then r (fun a => k))
  (at level 61, r at next level, right associativity) : py_scope.

Notation "a <- m ;; k" := (bind m (fun a => k))
  (at level 61, m at next level, right associativity) : py_scope.
Notation "m ;; k" := (bind m (fun _ => k))
  (at level 61, right associativity) : py_scope.

(** ** Scalars *)

(** The operations of Python numbers the class uses.  [num_div] is the
    quotient by a divisor that is not zero: Python tests the divisor first
    (see [truediv]).  [num_sqrt] is the root of a number that is not
    negative (see [math_sqrt]). *)
Class Number (F : Type) : Type := {
  num_of_Z : Z -> F;
  num_add : F -> F -> F;
  num_sub : F -> F -> F;
  num_mul : F -> F -> F;
  num_div : F -> F -> F;
  num_sqrt : F -> F;
  num_abs : F -> F;
  num_eqb : F -> F -> bool;
  num_ltb : F -> F -> bool;
  num_leb : F -> F -> bool;
  num_is_inf : F -> bool
}.

(** [math.cos], [math.sin], [math.atan2] and [math.acos] on arguments of
    their domain. *)
Class Trig (F : Type) : Type := {
  num_cos : F -> F;
  num_sin : F -> F;
  num_atan2 : F -> F -> F;
  num_acos : F -> F
}.

Notation "a + b" := (num_add a b) : py_scope.
Notation "a - b" := (num_sub a b) : py_scope.
Notation "a * b" := (num_mul a b) : py_scope.
Notation "a =? b" := (num_eqb a b) (at level 70) : py_scope.
Notation "a <? b" := (num_ltb a b) (at level 70) : py_scope.
Notation "a <=? b" := (num_leb a b) (at level 70) : py_scope.
Notation "a >? b" := (num_ltb b a) (at level 70) : py_scope.
Notation "a !=? b" := (negb (num_eqb a b)) (at level 70) : py_scope.

Section VectorClass.

Context {F : Type} {NF : Number F} {TF : Trig F}.

Local Open Scope py_scope.

(** An int literal of the source, as a scalar. *)
Definition int (n : Z) : F := num_of_Z n.

(** Python's [a / b] on numbers: a zero divisor raises, whatever [a] is. *)
Definition truediv (a b : F) : result F :=
  if b =? int 0 then Raise ZeroDivisionError else Ok (num_div a b).

(** [math.sqrt]: "math domain error" on a negative argument. *)
Definition math_sqrt (a : F) : result F :=
  if a <? int 0 then Raise ValueError else Ok (num_sqrt a).

(** [math.acos]: "math domain error" outside [-1, 1]. *)
Definition math_acos (a : F) : result F :=
  if (a <? int (-1)) || (a >? int 1) then Raise ValueError
  else Ok (num_acos a).

Definition math_cos (a : F) : F := num_cos a.
Definition math_sin (a : F) : F := num_sin a.
Definition math_atan2 (b a : F) : F := num_atan2 b a.

(** The default [rel_tol=1e-09] of [math.isclose]. *)
Definition rel_tol : F := num_div (int 1) (int 1000000000).

(** [math.isclose(a, b)] with its defaults ([abs_tol=0.0]), as CPython
    computes it. *)
Definition math_isclose (a b : F) : bool :=
  if a =? b then true
  else if num_is_inf a || num_is_inf b then false
  else
    let diff := num_abs (b - a) in
    (diff <=? num_abs (rel_tol * b))
    || (diff <=? num_abs (rel_tol * a))
    || (diff <=? int 0).

(** [sum(...)]: the terms added from the left to the int 0. *)
Definition sum (terms : list F) : F :=
  fold_left num_add terms (int 0).

(** ** The class *)

Record Vector : Type := mkVector { x : F; y : F; z : F }.

(** [__init__(self, x, y, z=0)] *)
Definition Vector_init (x0 y0 : F) (z0 : option F) : Vector :=
  mkVector x0 y0 (match z0 with Some c => c | None => int 0 end).

Definition Method (A : Type) : Type := St Vector A.

(** [self] *)
Definition this : Method Vector := fun self => Ok (self, self).

Definition get_x : Method F := fun self => Ok (x self, self).
Definition get_y : Method F := fun self => Ok (y self, self).
Definition get_z : Method F := fun self => Ok (z self, self).

Definition set_x (a : F) : Method unit :=
  fun self => Ok (tt, mkVector a (y self) (z self)).
Definition set_y (a : F) : Method unit :=
  fun self => Ok (tt, mkVector (x self) a (z self)).
Definition set_z (a : F) : Method unit :=
  fun self => Ok (tt, mkVector (x self) (y self) a).

(** A property of another object read inside a computation ([other.m]). *)
Definition eval {S A : Type} (obj : Vector) (m : Method A) : St S A :=
  fun s => match m obj with
           | Ok (a, _) => Ok (a, s)
           | Raise e => Raise e
           end.

(** A method called on a local object for its effect ([vec.m()]): the
    object as the call leaves it. *)
Definition exec {S A : Type} (obj : Vector) (m : Method A) : St S Vector :=
  fun s => match m obj with
           | Ok (_, obj') => Ok (obj', s)
           | Raise e => Raise e
           end.

(** The value a method returns, for statements about one call. *)
Definition returned {A : Type} (r : result (A * Vector)) : result A :=
  match r with
  | Ok (a, _) => Ok a
  | Raise e => Raise e
  end.

(** [__iter__]: yields [self.x], [self.y], [self.z]. *)
Definition __iter__ : Method (list F) :=
  sx <- get_x;; sy <- get_y;; sz <- get_z;; ret [sx; sy; sz].

(** [zip(self, other)] *)
Definition zip_self (other : Vector) : Method (list (F * F)) :=
  sc <- __iter__;; oc <- eval other __iter__;; ret (combine sc oc).

(** [dot]: [sum(sc*oc for sc, oc in zip(self, other))] *)
Definition dot (other : Vector) : Method F :=
  pairs <- zip_self other;;
  ret (sum (map (fun p => fst p * snd p) pairs)).

Definition __matmul__ (other : Vector) : Method F := dot other.

(** The [angle] property. *)
Definition angle : Method F :=
  sz <- get_z;;
  if sz !=? int 0 then raise ValueError
  else sy <- get_y;; sx <- get_x;; ret (math_atan2 sy sx).

Definition rotate (theta : F) : Method unit :=
  sx <- get_x;; sy <- get_y;;
  let x' := sx * math_cos theta - sy * math_sin theta in
  sx <- get_x;; sy <- get_y;;
  let y' := sx * math_sin theta + sy * math_cos theta in
  set_x x';;
  set_y y'.

(** [@angle.setter]: [self.rotate(theta - self.angle)] *)
Definition set_angle (theta : F) : Method unit :=
  a <- angle;; rotate (theta - a).

(** The [magnitude] property: [math.sqrt(self.dot(self))] *)
Definition magnitude : Method F :=
  self <- this;;
  d <- dot self;;
  lift (math_sqrt d).

Definition angle_between (other : Vector) : Method F :=
  d <- __matmul__ other;;
  m1 <- magnitude;;
  m2 <- eval other magnitude;;
  q <- lift (truediv d (m1 * m2));;
  lift (math_acos q).

(** [@magnitude.setter] *)
Definition set_magnitude (new_magnitude : F) : Method unit :=
  current_magnitude <- magnitude;;
  sx <- get_x;; qx <- lift (truediv sx current_magnitude);;
  set_x (qx * new_magnitude);;
  sy <- get_y;; qy <- lift (truediv sy current_magnitude);;
  set_y (qy * new_magnitude);;
  sz <- get_z;; qz <- lift (truediv sz current_magnitude);;
  set_z (qz * new_magnitude).

Definition magnitude_sq : Method F :=
  self <- this;;
  dot self.

(** [@magnitude_sq.setter] *)
Definition set_magnitude_sq (new_magnitude_sq : F) : Method unit :=
  r <- lift (math_sqrt new_magnitude_sq);;
  set_magnitude r.

Definition __abs__ : Method F := magnitude.

Definition normalize : Method unit := set_magnitude (int 1).

Definition limit (upper_limit lower_limit : option F) : Method unit :=
  magnitude0 <- magnitude;;
  let upper_limit :=
    match upper_limit with None => magnitude0 | Some u => u end in
  let lower_limit :=
    match lower_limit with None => magnitude0 | Some l => l end in
  if magnitude0 <? lower_limit then set_magnitude lower_limit
  else if magnitude0 >? upper_limit then set_magnitude upper_limit
  else ret tt.

Definition __add__ (other : Vector) : Method Vector :=
  sx <- get_x;; sy <- get_y;; sz <- get_z;;
  ret (mkVector (sx + x other) (sy + y other) (sz + z other)).

Definition __sub__ (other : Vector) : Method Vector :=
  sx <- get_x;; sy <- get_y;; sz <- get_z;;
  ret (mkVector (sx - x other) (sy - y other) (sz - z other)).

(** The Python values an operator of the class can meet as its other
    operand. *)
Inductive PyVal : Type :=
| PInt (n : Z)
| PBool (b : bool)
| PFloat (f : F)
| PVector (v : Vector)
| PStr (s : string)
| PNone.

(** [isinstance(k, int)]: [bool] is a subclass of [int]. *)
Definition isinstance_int (k : PyVal) : bool :=
  match k with
  | PInt _ | PBool _ => true
  | _ => false
  end.

Definition isinstance_float (k : PyVal) : bool :=
  match k with
  | PFloat _ => true
  | _ => false
  end.

(** The scalar an int, bool or float operand stands for in arithmetic with
    a component (read under the [isinstance] test only). *)
Definition operand (k : PyVal) : F :=
  match k with
  | PInt n => int n
  | PBool b => int (Z.b2z b)
  | PFloat f => f
  | _ => int 0
  end.

Definition __mul__ (k : PyVal) : Method Vector :=
  if isinstance_int k || isinstance_float k then
    sx <- get_x;; sy <- get_y;; sz <- get_z;;
    ret (mkVector (sx * operand k) (sy * operand k) (sz * operand k))
  else raise TypeError.

Definition __rmul__ (other : PyVal) : Method Vector := __mul__ other.

(** [__neg__]: [-1 * self], which Python sends to [__rmul__]. *)
Definition __neg__ : Method Vector := __rmul__ (PInt (-1)).

(** [1 / other]: the int 1 divided by the operand. *)
Definition one_over (other : PyVal) : result PyVal :=
  match other with
  | PInt n =>
      if (n =? 0)%Z then Raise ZeroDivisionError
      else Ok (PFloat (num_div (int 1) (int n)))
  | PBool b =>
      if b then Ok (PFloat (num_div (int 1) (int 1)))
      else Raise ZeroDivisionError
  | PFloat f =>
      match truediv (int 1) f with
      | Ok q => Ok (PFloat q)
      | Raise e => Raise e
      end
  | PVector _ | PStr _ | PNone => Raise TypeError
  end.

(** [__truediv__]: [self * (1 / other)] *)
Definition __truediv__ (other : PyVal) : Method Vector :=
  r <- lift (one_over other);;
  __mul__ r.

Definition cross (other : Vector) : Method Vector :=
  sx <- get_x;; sy <- get_y;; sz <- get_z;;
  ret (mkVector (sy * z other - sz * y other)
                (sz * x other - sx * z other)
                (sx * y other - sy * x other)).

Definition copy : Method Vector :=
  components <- __iter__;;
  match components with
  | [c1; c2; c3] => ret (Vector_init c1 c2 (Some c3))
  | _ => raise TypeError
  end.

(** [__eq__]: [all(math.isclose(si, oi) for si, oi in zip(self, other))] *)
Definition __eq__ (other : Vector) : Method bool :=
  pairs <- zip_self other;;
  ret (forallb (fun p => math_isclose (fst p) (snd p)) pairs).

Definition __neq__ (other : Vector) : Method bool :=
  pairs <- zip_self other;;
  ret (negb (forallb (fun p => math_isclose (fst p) (snd p)) pairs)).

(** ** Class methods *)

(** The uniform source behind [random.random()]: the values it will
    return, in order. *)
Definition rng : Type := nat -> F.

Definition random_random : St rng F :=
  fun g => Ok (g 0%nat, fun n => g (S n)).

Definition random_2D : St rng Vector :=
  x0 <- random_random;;
  y0 <- random_random;;
  let vec := Vector_init x0 y0 None in
  vec <- exec vec normalize;;
  ret vec.

Definition random_3D : St rng Vector :=
  x0 <- random_random;;
  y0 <- random_random;;
  z0 <- random_random;;
  let vec := Vector_init x0 y0 (Some z0) in
  vec <- exec vec normalize;;
  ret vec.


End VectorClass.

Arguments Vector F : clear implicits.
Arguments PyVal F : clear implicits.
Arguments rng F : clear implicits.

(** ** The two scalar instances *)

(** *** IEEE binary64 *)

(** An int as the nearest float (round to nearest, ties to even). *)
Definition float_of_Z (n : Z) : float :=
  SF2Prim (binary_normalize prec emax n 0 false).

#[global] Instance Binary64 : Number float := {|
  num_of_Z := float_of_Z;
  num_add := PrimFloat.add;
  num_sub := PrimFloat.sub;
  num_mul := PrimFloat.mul;
  num_div := PrimFloat.div;
  num_sqrt := PrimFloat.sqrt;
  num_abs := PrimFloat.abs;
  num_eqb := PrimFloat.eqb;
  num_ltb := PrimFloat.ltb;
  num_leb := PrimFloat.leb;
  num_is_inf := fun f => PrimFloat.eqb (PrimFloat.abs f) infinity
|}.

(** [math.cos] and [math.sin] on binary64 belong to the host's C library.
    One run below needs them at one argument, the float [math.pi / 4]: the
    table holds the two values CPython returns there, the floats nearest
    to the cosine and the sine of that number, and NaN elsewhere. *)
Definition quarter_pi : float := 0x1.921fb54442d18p-1.

Definition TrigAtQuarterPi : Trig float := {|
  num_cos := fun t =>
    if PrimFloat.eqb t quarter_pi then 0x1.6a09e667f3bcdp-1%float
    else nan;
  num_sin := fun t =>
    if PrimFloat.eqb t quarter_pi then 0x1.6a09e667f3bccp-1%float
    else nan;
  num_atan2 := fun _ _ => nan;
  num_acos := fun _ => nan
|}.

(** *** Exact arithmetic *)

Definition Reqb (a b : R) : bool := if Req_dec_T a b then true else false.
Definition Rltb (a b : R) : bool := if Rlt_dec a b then true else false.
Definition Rleb (a b : R) : bool := if Rle_dec a b then true else false.

#[global] Instance Exact : Number R := {|
  num_of_Z := IZR;
  num_add := Rplus;
  num_sub := Rminus;
  num_mul := Rmult;
  num_div := Rdiv;
  num_sqrt := R_sqrt.sqrt;
  num_abs := Rabs;
  num_eqb := Reqb;
  num_ltb := Rltb;
  num_leb := Rleb;
  num_is_inf := fun _ => false
|}.

(** [math.atan2(b, a)] on the reals: the angle in (-pi, pi] of the point
    [(a, b)], as the library documents it; [atan2(0, 0)] is 0. *)
Definition Ratan2 (b a : R) : R :=
  if Rlt_dec 0 a then atan (b / a)
  else if Rlt_dec a 0 then
    if Rle_dec 0 b then atan (b / a) + PI else atan (b / a) - PI
  else if Rlt_dec 0 b then PI / 2
  else if Rlt_dec b 0 then - (PI / 2)
  else 0.

#[global] Instance ExactTrig : Trig R := {|
  num_cos := cos;
  num_sin := sin;
  num_atan2 := Ratan2;
  num_acos := acos
|}.

(** ** Vocabulary of the statements *)

Section Vocabulary.

Context {F : Type} {NF : Number F}.

Local Open Scope py_scope.


(** Each component of [v] multiplied by [k]. *)
Definition scale (k : F) (v : Vector F) : Vector F :=
  mkVector (x v * k) (y v * k) (z v * k).

(** The radicand of [magnitude]: what [self.dot(self)] adds up. *)
Definition norm2 (v : Vector F) : F :=
  int 0 + x v * x v + y v * y v + z v * z v.

(** What [self.dot(other)] adds up. *)
Definition inner (a b : Vector F) : F :=
  int 0 + x a * x b + y a * y b + z a * z b.

(** [self.m]: the value the method [m] returns when called on [self]. *)
Definition on {A : Type} (self : Vector F) (m : Method A) : result A :=
  returned (m self).

(** [cross(a, b) == -cross(b, a)], evaluated as Python does. *)
Definition cross_anticommutes (a b : Vector F) : result bool :=
  ab <-- on a (cross b);;
  ba <-- on b (cross a);;
  nba <-- on ba __neg__;;
  on ab (__eq__ nba).

End Vocabulary.

(** Two binary64 values that are equal, or are two zeros: what [==] on
    floats cannot tell apart. *)
Definition SFsame (f g : spec_float) : Prop :=
  f = g \/ exists s s', f = S754_zero s /\ g = S754_zero s'.

(** The test of [math.isclose] with its defaults, on the reals: the two
    numbers differ by at most [1e-09] times the larger absolute value. *)
Definition within_rel_tol (a b : R) : Prop :=
  (Rabs (a - b) <= Rmax (Rabs a) (Rabs b) / 1000000000)%R.

(** A binary64 value that is not below zero: a zero, a NaN, or a finite or
    infinite value of positive sign. *)
Definition SFnot_negative (f : spec_float) : Prop :=
  match f with
  | S754_zero _ | S754_nan => True
  | S754_infinity s | S754_finite s _ _ => s = false
  end.

(** The float [0.0], or the NaN. *)
Definition zero_or_nan (f : float) : Prop := f = 0%float \/ f = nan.

(** The stream that returns [u0], then [u1], then [u2] for ever. *)
Definition draws {F : Type} (u0 u1 u2 : F) : rng F :=
  fun n => match n with
           | O => u0
           | S O => u1
           | _ => u2
           end.

(** Unfolds the plumbing of a method body. *)
Ltac run :=
  cbv beta iota delta
    [bind ret raise lift eval exec returned this on and_then
     get_x get_y get_z set_x set_y set_z
     fst snd __iter__ zip_self combine map fold_left sum forallb].

Unset Implicit Arguments.

(** * Properties that hold for every scalar type

    These depend on the control flow of the methods only, so they hold on
    binary64 floats as they do on the reals. *)

Section ControlFlow.

Context {F : Type} {NF : Number F} {TF : Trig F}.

Local Open Scope py_scope.

(** *** The [angle] property *)

Lemma angle_2D (v : Vector F) :
  (z v !=? int 0) = false ->
  angle v = Ok (math_atan2 (y v) (x v), v).
Proof.
  intros Hz. unfold angle. run. rewrite Hz. reflexivity.
Qed.

Lemma angle_3D (v : Vector F) :
  (z v !=? int 0) = true -> angle v = Raise ValueError.
Proof.
  intros Hz. unfold angle. run. rewrite Hz. reflexivity.
Qed.

Lemma set_angle_3D (v : Vector F) (theta : F) :
  (z v !=? int 0) = true -> set_angle theta v = Raise ValueError.
Proof.
  intros Hz. unfold set_angle, bind. rewrite (angle_3D v Hz). reflexivity.
Qed.

(** C1: reading [angle] raises [ValueError] exactly when [self.z != 0];
    when [self.z == 0] it returns [atan2(y, x)] and leaves the vector as it
    was; assigning [angle] raises [ValueError] under the same test, because
    the setter reads the angle first. *)
Theorem angle_raises_iff_z_nonzero (v : Vector F) :
  (angle v = Raise ValueError <-> (z v !=? int 0) = true)
  /\ ((z v !=? int 0) = false ->
      angle v = Ok (math_atan2 (y v) (x v), v))
  /\ ((z v !=? int 0) = true ->
      forall theta, set_angle theta v = Raise ValueError).
Proof.
  split; [split|split].
  - intros Hr. destruct (z v !=? int 0) eqn:Hz; [reflexivity|].
    rewrite (angle_2D v Hz) in Hr. discriminate Hr.
  - apply angle_3D.
  - apply angle_2D.
  - intros Hz theta. now apply set_angle_3D.
Qed.


(** *** Multiplication by a scalar *)




(** *** Division by zero *)

Lemma truediv_zero (a b : F) :
  (b =? int 0) = true -> truediv a b = Raise ZeroDivisionError.
Proof. intros Hb. unfold truediv. now rewrite Hb. Qed.

Lemma set_magnitude_zero (v : Vector F) (m new : F) :
  on v magnitude = Ok m -> (m =? int 0) = true ->
  set_magnitude new v = Raise ZeroDivisionError.
Proof.
  unfold on, returned, set_magnitude, bind at 1.
  destruct (magnitude v) as [[m' v']|e]; intros Hm H0; inversion Hm; subst.
  unfold bind, get_x, lift. rewrite (truediv_zero _ _ H0). reflexivity.
Qed.

(** Reading [magnitude] leaves the vector as it was. *)
Lemma magnitude_frame (v : Vector F) (m : F) (v' : Vector F) :
  magnitude v = Ok (m, v') -> v' = v.
Proof.
  unfold magnitude, dot. run. unfold math_sqrt.
  destruct (_ <? _); intros H; inversion H; reflexivity.
Qed.

Lemma angle_between_zero (v other : Vector F) (m1 m2 : F) :
  on v magnitude = Ok m1 -> on other magnitude = Ok m2 ->
  (m1 * m2 =? int 0) = true ->
  angle_between other v = Raise ZeroDivisionError.
Proof.
  unfold on, returned. intros H1 H2 H0.
  destruct (magnitude v) as [[m1' v']|e] eqn:E1; inversion H1; subst.
  destruct (magnitude other) as [[m2' o']|e] eqn:E2; inversion H2; subst.
  pose proof (magnitude_frame _ _ _ E1); subst v'.
  unfold angle_between, __matmul__, dot. run.
  rewrite E1. cbv beta iota. rewrite E2. cbv beta iota.
  rewrite (truediv_zero _ _ H0). reflexivity.
Qed.

(** C2, as the code has it: dividing a vector by a zero scalar (the int 0,
    [False] or a float equal to 0), assigning [magnitude] or calling
    [normalize] when the current magnitude is zero, and [angle_between] when
    the product of the two magnitudes is zero all raise
    [ZeroDivisionError]: Python's [/] raises on a zero divisor, no infinity
    or NaN is produced. *)
Theorem zero_division_raises (v : Vector F) :
  __truediv__ (PInt 0) v = Raise ZeroDivisionError
  /\ __truediv__ (PBool false) v = Raise ZeroDivisionError
  /\ (forall f, (f =? int 0) = true ->
      __truediv__ (PFloat f) v = Raise ZeroDivisionError)
  /\ (forall m, on v magnitude = Ok m -> (m =? int 0) = true ->
      (forall new, set_magnitude new v = Raise ZeroDivisionError)
      /\ normalize v = Raise ZeroDivisionError)
  /\ (forall other m1 m2,
      on v magnitude = Ok m1 -> on other magnitude = Ok m2 ->
      (m1 * m2 =? int 0) = true ->
      angle_between other v = Raise ZeroDivisionError).
Proof.
  repeat split.
  - intros f Hf. unfold __truediv__, bind, lift, one_over.
    rewrite (truediv_zero _ _ Hf). reflexivity.
  - intros new. eapply set_magnitude_zero; eauto.
  - unfold normalize. eapply set_magnitude_zero; eauto.
  - intros. eapply angle_between_zero; eauto.
Qed.

(** *** Other methods *)

(** [copy()] returns a vector of the same components and leaves [self] as
    it was. *)
Theorem copy_same_components (v : Vector F) : copy v = Ok (v, v).
Proof. destruct v. reflexivity. Qed.

(** Assigning a negative [magnitude_sq] raises [ValueError], from
    [math.sqrt]. *)
Theorem set_magnitude_sq_negative (v : Vector F) (n : F) :
  (n <? int 0) = true -> set_magnitude_sq n v = Raise ValueError.
Proof.
  intros Hn. unfold set_magnitude_sq, bind, lift, math_sqrt.
  now rewrite Hn.
Qed.

(** *** The dot product, division and the angle between two vectors *)

Lemma dot_inner (a b : Vector F) : dot b a = Ok (inner a b, a).
Proof. reflexivity. Qed.


(** [angle_between] raises [ValueError] when the quotient of the dot
    product by the product of the magnitudes, as computed, lies outside
    [-1, 1]: [math.acos] reports a domain error. *)
Theorem angle_between_domain_error (v other : Vector F) (d m1 m2 : F) :
  on v (dot other) = Ok d ->
  on v magnitude = Ok m1 -> on other magnitude = Ok m2 ->
  (m1 * m2 =? int 0) = false ->
  (num_div d (m1 * m2) <? int (-1)) || (num_div d (m1 * m2) >? int 1)
  = true ->
  angle_between other v = Raise ValueError.
Proof.
  unfold on, returned. intros Hd H1 H2 H0 Hq.
  destruct (magnitude v) as [[m1' v']|e] eqn:E1; inversion H1; subst.
  destruct (magnitude other) as [[m2' o']|e] eqn:E2; inversion H2; subst.
  pose proof (magnitude_frame _ _ _ E1); subst v'.
  unfold angle_between, __matmul__, bind at 1.
  destruct (dot other v) as [[d' v']|e] eqn:Ed; inversion Hd; subst.
  assert (v' = v) by (unfold dot in Ed; run; now inversion Ed). subst v'.
  run. rewrite E1. cbv beta iota. rewrite E2. cbv beta iota.
  unfold truediv. rewrite H0. unfold math_acos. now rewrite Hq.
Qed.

End ControlFlow.

(** * Properties in exact arithmetic

    The scalars are the real numbers: what the source computes when no
    operation rounds. *)

Section ExactArithmetic.

Local Open Scope R_scope.

(** *** The comparisons decide the order of the reals *)

Lemma Reqb_true (a b : R) : Reqb a b = true <-> a = b.
Proof. unfold Reqb. destruct (Req_dec_T a b); split; congruence. Qed.

Lemma Reqb_false (a b : R) : Reqb a b = false <-> a <> b.
Proof. unfold Reqb. destruct (Req_dec_T a b); split; congruence. Qed.

Lemma Rltb_true (a b : R) : Rltb a b = true <-> a < b.
Proof. unfold Rltb. destruct (Rlt_dec a b); split; congruence. Qed.

Lemma Rltb_false (a b : R) : Rltb a b = false <-> ~ a < b.
Proof. unfold Rltb. destruct (Rlt_dec a b); split; congruence. Qed.

(** *** Magnitude *)

Lemma norm2_eq (v : Vector R) :
  norm2 v = x v * x v + y v * y v + z v * z v.
Proof. unfold norm2, int. cbn. ring. Qed.

Lemma norm2_nonneg (v : Vector R) : 0 <= norm2 v.
Proof. rewrite norm2_eq. nra. Qed.

Lemma dot_self (v : Vector R) : dot v v = Ok (norm2 v, v).
Proof. reflexivity. Qed.

Lemma math_sqrt_exact (a : R) : 0 <= a -> math_sqrt a = Ok (sqrt a).
Proof.
  intros Ha. unfold math_sqrt.
  replace (num_ltb a (int 0)) with false; [reflexivity|].
  symmetry. apply Rltb_false. unfold int. cbn. lra.
Qed.

(** [magnitude] always returns: the radicand is a sum of squares. *)
Lemma magnitude_exact (v : Vector R) :
  magnitude v = Ok (sqrt (norm2 v), v).
Proof.
  unfold magnitude, bind, this. rewrite dot_self.
  unfold lift. now rewrite (math_sqrt_exact _ (norm2_nonneg v)).
Qed.

Lemma on_magnitude (v : Vector R) : on v magnitude = Ok (sqrt (norm2 v)).
Proof. unfold on. now rewrite magnitude_exact. Qed.

Lemma truediv_exact (a b : R) : b <> 0 -> truediv a b = Ok (a / b).
Proof.
  intros Hb. unfold truediv.
  replace (num_eqb b (int 0)) with false; [reflexivity|].
  symmetry. now apply Reqb_false.
Qed.

(** The setter on a vector whose magnitude is not zero. *)
Lemma set_magnitude_exact (v : Vector R) (m : R) :
  sqrt (norm2 v) <> 0 ->
  set_magnitude m v =
  Ok (tt, mkVector (x v / sqrt (norm2 v) * m)
                   (y v / sqrt (norm2 v) * m)
                   (z v / sqrt (norm2 v) * m)).
Proof.
  intros Hs. unfold set_magnitude, bind at 1. rewrite magnitude_exact.
  run. rewrite !(truediv_exact _ _ Hs). reflexivity.
Qed.

Lemma sqrt_norm2_pos (v : Vector R) :
  sqrt (norm2 v) <> 0 -> 0 < sqrt (norm2 v).
Proof. intros H. pose proof (sqrt_pos (norm2 v)). lra. Qed.

Lemma sqrt_norm2_sqr (v : Vector R) :
  sqrt (norm2 v) * sqrt (norm2 v) = norm2 v.
Proof. apply sqrt_sqrt, norm2_nonneg. Qed.

(** The squared norm the setter leaves. *)
Lemma norm2_rescaled (v : Vector R) (m : R) :
  sqrt (norm2 v) <> 0 ->
  norm2 (mkVector (x v / sqrt (norm2 v) * m)
                  (y v / sqrt (norm2 v) * m)
                  (z v / sqrt (norm2 v) * m)) = m * m.
Proof.
  intros Hs. pose proof (sqrt_norm2_sqr v) as Hq.
  remember (sqrt (norm2 v)) as s eqn:Es. clear Es.
  rewrite norm2_eq in Hq. rewrite norm2_eq. cbn [x y z].
  transitivity ((x v * x v + y v * y v + z v * z v) / (s * s) * (m * m)).
  - field. exact Hs.
  - rewrite <- Hq. field. exact Hs.
Qed.

Lemma sqrt_sqr_abs (m : R) : sqrt (m * m) = Rabs m.
Proof. apply sqrt_Rsqr_abs. Qed.

Lemma rescaled_is_scale (v : Vector R) (m s : R) :
  s <> 0 ->
  mkVector (x v / s * m) (y v / s * m) (z v / s * m) = scale (m / s) v.
Proof.
  intros Hs. unfold scale. cbn. f_equal; field; exact Hs.
Qed.

Lemma set_magnitude_spec (v : Vector R) (m cur : R) :
  on v magnitude = Ok cur -> cur <> 0 ->
  exists v',
    set_magnitude m v = Ok (tt, v')
    /\ v' = scale (m / cur) v
    /\ on v' magnitude = Ok (Rabs m).
Proof.
  rewrite on_magnitude. intros Hc Hn.
  assert (Hc' : sqrt (norm2 v) = cur) by congruence.
  rewrite <- Hc' in *.
  eexists. split; [apply set_magnitude_exact; exact Hn|].
  split; [now apply rescaled_is_scale|].
  rewrite on_magnitude, (norm2_rescaled v m Hn), sqrt_sqr_abs. reflexivity.
Qed.

(** The docstring's [Vector(2, 3, 6)]. *)
Lemma magnitude_236 : on (mkVector 2 3 6) magnitude = Ok 7.
Proof.
  rewrite on_magnitude. f_equal. rewrite norm2_eq. cbn [x y z].
  apply sqrt_lem_1; lra.
Qed.

Lemma set_magnitude_236 :
  set_magnitude 14 (mkVector 2 3 6) = Ok (tt, mkVector 4 6 12).
Proof.
  destruct (set_magnitude_spec (mkVector 2 3 6) 14 7 magnitude_236)
    as [v' [Hset [Hv' _]]]; [lra|].
  rewrite Hset, Hv'.
  replace (scale (14 / 7) (mkVector 2 3 6)) with (mkVector 4 6 12);
    [reflexivity|].
  unfold scale. cbn. f_equal; field.
Qed.

(** C4, as the code has it, in exact arithmetic: on a vector whose
    magnitude [cur] is not zero, assigning [m] to [magnitude] multiplies
    the three components by [m / cur]; the norm it leaves is [|m|], which
    is [m] when [0 <= m], and the factor is positive when [0 < m].
    Assigning 14 on [Vector(2, 3, 6)] leaves [(4, 6, 12)]. *)
Theorem set_magnitude_rescales :
  (forall (v : Vector R) (m cur : R),
      on v magnitude = Ok cur -> cur <> 0 ->
      exists v',
        set_magnitude m v = Ok (tt, v')
        /\ v' = scale (m / cur) v
        /\ on v' magnitude = Ok (Rabs m)
        /\ (0 <= m -> on v' magnitude = Ok m)
        /\ (0 < m -> 0 < m / cur))
  /\ set_magnitude 14 (mkVector 2 3 6) = Ok (tt, mkVector 4 6 12).
Proof.
  split; [|exact set_magnitude_236].
  intros v m cur Hc Hn.
  destruct (set_magnitude_spec v m cur Hc Hn) as [v' [Hset [Hv' Hm]]].
  exists v'. repeat split; try assumption.
  - intros Hpos. rewrite Hm, Rabs_right; [reflexivity|lra].
  - intros Hpos. rewrite on_magnitude in Hc.
    assert (Hc' : sqrt (norm2 v) = cur) by congruence.
    pose proof (sqrt_pos (norm2 v)) as Hs.
    apply Rdiv_lt_0_compat; lra.
Qed.

Lemma set_magnitude_rescales_witness :
  exists v',
    set_magnitude 14 (mkVector 2 3 6) = Ok (tt, v')
    /\ v' = scale (14 / 7) (mkVector 2 3 6)
    /\ on v' magnitude = Ok (Rabs 14)
    /\ (0 <= 14 -> on v' magnitude = Ok 14)
    /\ (0 < 14 -> 0 < 14 / 7).
Proof.
  apply (proj1 set_magnitude_rescales (mkVector 2 3 6) 14 7).
  - exact magnitude_236.
  - lra.
Defined.

(** [Vector(3, 4)] *)
Lemma magnitude_340 : on (mkVector 3 4 0) magnitude = Ok 5.
Proof.
  rewrite on_magnitude. f_equal. rewrite norm2_eq. cbn [x y z].
  apply sqrt_lem_1; lra.
Qed.

(** Assigning -1 to the magnitude of [Vector(3, 4)] leaves
    [(-3/5, -4/5, 0)], whose norm is 1 and not -1, and which points the
    other way. *)
Lemma set_magnitude_negative :
  exists v',
    set_magnitude (-1) (mkVector 3 4 0) = Ok (tt, v')
    /\ v' = mkVector (-3 / 5) (-4 / 5) 0
    /\ on v' magnitude = Ok 1
    /\ on v' magnitude <> Ok (-1).
Proof.
  destruct (set_magnitude_spec (mkVector 3 4 0) (-1) 5 magnitude_340)
    as [v' [Hset [Hv' Hm]]]; [lra|].
  exists v'. split; [exact Hset|]. split.
  - rewrite Hv'. unfold scale. cbn. f_equal; field.
  - rewrite Hm, Rabs_left by lra.
    split; [f_equal; lra|]. intros H. inversion H. lra.
Qed.

(** *** [limit] *)

Lemma limit_unfold (v : Vector R) (upper lower : option R) :
  limit upper lower v =
  (if Rltb (sqrt (norm2 v))
           (match lower with None => sqrt (norm2 v) | Some l => l end)
   then set_magnitude
          (match lower with None => sqrt (norm2 v) | Some l => l end) v
   else if Rltb (match upper with None => sqrt (norm2 v) | Some u => u end)
                (sqrt (norm2 v))
   then set_magnitude
          (match upper with None => sqrt (norm2 v) | Some u => u end) v
   else Ok (tt, v)).
Proof.
  unfold limit, bind at 1. rewrite magnitude_exact.
  change (@num_ltb R Exact) with Rltb.
  destruct (Rltb _ _); [reflexivity|].
  destruct (Rltb _ _); reflexivity.
Qed.

Lemma Rltb_irrefl (a : R) : Rltb a a = false.
Proof. apply Rltb_false. lra. Qed.

Lemma limit_no_bounds (v : Vector R) : limit None None v = Ok (tt, v).
Proof. rewrite limit_unfold, Rltb_irrefl. reflexivity. Qed.

(** C5, in exact arithmetic: [limit()] with both bounds omitted leaves the
    vector as it was; with each omitted bound read as the current magnitude
    [m], [limit] assigns [lower] to the magnitude when [m < lower], else
    assigns [upper] when [m > upper], else changes nothing; and
    [limit(upper_limit=1)] on a vector of magnitude [m > 1] leaves
    magnitude exactly 1, the vector being the old one times the positive
    factor [1 / m]. *)
Theorem limit_clamps (v : Vector R) :
  limit None None v = Ok (tt, v)
  /\ (forall upper lower m lo hi,
      on v magnitude = Ok m ->
      lo = match lower with None => m | Some l => l end ->
      hi = match upper with None => m | Some u => u end ->
      (m < lo -> limit upper lower v = set_magnitude lo v)
      /\ (~ m < lo -> hi < m -> limit upper lower v = set_magnitude hi v)
      /\ (~ m < lo -> ~ hi < m -> limit upper lower v = Ok (tt, v)))
  /\ (forall m, on v magnitude = Ok m -> 1 < m ->
      exists v',
        limit (Some 1) None v = Ok (tt, v')
        /\ on v' magnitude = Ok 1
        /\ v' = scale (1 / m) v /\ 0 < 1 / m).
Proof.
  split; [apply limit_no_bounds|]. split.
  - intros upper lower m lo hi Hm Hlo Hhi.
    rewrite on_magnitude in Hm.
    assert (Em : sqrt (norm2 v) = m) by congruence.
    rewrite limit_unfold, Em, <- Hlo, <- Hhi.
    repeat split.
    + intros H. apply Rltb_true in H. now rewrite H.
    + intros H1 H2. apply Rltb_false in H1. apply Rltb_true in H2.
      now rewrite H1, H2.
    + intros H1 H2. apply Rltb_false in H1. apply Rltb_false in H2.
      now rewrite H1, H2.
  - intros m Hm H1.
    destruct (set_magnitude_spec v 1 m Hm) as [v' [Hset [Hv' Hn]]]; [lra|].
    exists v'. rewrite on_magnitude in Hm.
    assert (Em : sqrt (norm2 v) = m) by congruence.
    rewrite limit_unfold, Em, Rltb_irrefl.
    replace (Rltb 1 m) with true by (symmetry; now apply Rltb_true).
    repeat split; try assumption.
    + rewrite Hn, Rabs_right; [reflexivity|lra].
    + apply Rdiv_lt_0_compat; lra.
Qed.

Lemma limit_clamps_witness :
  exists v',
    limit (Some 1) None (mkVector 3 4 0) = Ok (tt, v')
    /\ on v' magnitude = Ok 1
    /\ v' = scale (1 / 5) (mkVector 3 4 0) /\ 0 < 1 / 5.
Proof.
  apply (proj2 (proj2 (limit_clamps (mkVector 3 4 0))) 5).
  - exact magnitude_340.
  - lra.
Defined.

(** *** The cross product *)

Lemma math_isclose_refl (a b : R) : a = b -> math_isclose a b = true.
Proof.
  intros E. unfold math_isclose.
  replace (num_eqb a b) with true; [reflexivity|].
  symmetry. now apply Reqb_true.
Qed.

(** In exact arithmetic [a.cross(b) == -b.cross(a)] evaluates to [True]
    for all vectors, with [==] the [__eq__] of the class and [-] its
    [__neg__]. *)
Theorem cross_anticommutative_exact (a b : Vector R) :
  cross_anticommutes a b = Ok true.
Proof.
  unfold cross_anticommutes, on, cross, __neg__, __rmul__, __mul__, __eq__.
  cbn [isinstance_int isinstance_float orb operand].
  run. cbn [x y z]. f_equal.
  rewrite !math_isclose_refl; [reflexivity| | |]; unfold int; cbn; ring.
Qed.

(** *** Rotation *)

Lemma norm2_rotated (v : Vector R) (theta : R) :
  norm2 (mkVector (x v * cos theta - y v * sin theta)
                  (x v * sin theta + y v * cos theta) (z v)) = norm2 v.
Proof.
  rewrite !norm2_eq. cbn [x y z].
  pose proof (sin2_cos2 theta) as H. unfold Rsqr in H.
  transitivity
    ((x v * x v + y v * y v)
     * (sin theta * sin theta + cos theta * cos theta) + z v * z v).
  - ring.
  - rewrite H. ring.
Qed.

Lemma rotate_exact (v : Vector R) (theta : R) :
  rotate theta v =
  Ok (tt, mkVector (x v * cos theta - y v * sin theta)
                   (x v * sin theta + y v * cos theta) (z v)).
Proof. reflexivity. Qed.

(** C10, in exact arithmetic: [rotate(theta)] leaves the magnitude of
    every vector as it was; so does assigning [angle], which rotates when
    [z == 0] and raises before it touches the vector otherwise. *)
Theorem rotate_preserves_magnitude (v : Vector R) (theta : R) :
  (exists v', rotate theta v = Ok (tt, v')
              /\ on v' magnitude = on v magnitude)
  /\ (z v = 0 ->
      exists v', set_angle theta v = Ok (tt, v')
                 /\ on v' magnitude = on v magnitude)
  /\ (z v <> 0 -> set_angle theta v = Raise ValueError).
Proof.
  split; [|split].
  - eexists. split; [apply rotate_exact|].
    now rewrite !on_magnitude, norm2_rotated.
  - intros Hz. unfold set_angle, bind. rewrite angle_2D.
    + rewrite rotate_exact. eexists. split; [reflexivity|].
      now rewrite !on_magnitude, norm2_rotated.
    + apply negb_false_iff. now apply Reqb_true.
  - intros Hz. apply set_angle_3D.
    apply negb_true_iff. now apply Reqb_false.
Qed.

Lemma rotate_preserves_magnitude_witness :
  exists v', set_angle (PI / 2) (mkVector 1 1 0) = Ok (tt, v')
             /\ on v' magnitude = on (mkVector 1 1 0) magnitude.
Proof.
  apply (proj1 (proj2 (rotate_preserves_magnitude (mkVector 1 1 0) (PI / 2)))).
  reflexivity.
Defined.

(** *** [atan2] on the unit circle *)

Lemma sqrt_one_plus_sqr (a b : R) :
  a * a + b * b = 1 -> a <> 0 -> sqrt (1 + Rsqr (b / a)) = / Rabs a.
Proof.
  intros H Ha.
  assert (Hp : 0 < Rabs a) by now apply Rabs_pos_lt.
  apply sqrt_lem_1.
  - unfold Rsqr. nra.
  - left. now apply Rinv_0_lt_compat.
  - assert (Hq : Rabs a * Rabs a = a * a).
    { unfold Rabs. destruct (Rcase_abs a); ring. }
    unfold Rsqr.
    transitivity ((a * a + b * b) / (a * a)).
    + rewrite H, <- Hq. field. lra.
    + field. exact Ha.
Qed.

Lemma cos_sin_atan_pos (a b : R) :
  a * a + b * b = 1 -> 0 < a ->
  cos (atan (b / a)) = a /\ sin (atan (b / a)) = b.
Proof.
  intros H Ha.
  rewrite cos_atan, sin_atan, (sqrt_one_plus_sqr a b H) by lra.
  rewrite Rabs_right by lra. split; field; lra.
Qed.

Lemma cos_sin_atan_neg (a b : R) :
  a * a + b * b = 1 -> a < 0 ->
  cos (atan (b / a)) = - a /\ sin (atan (b / a)) = - b.
Proof.
  intros H Ha.
  rewrite cos_atan, sin_atan, (sqrt_one_plus_sqr a b H) by lra.
  rewrite Rabs_left by lra. split; field; lra.
Qed.

(** [atan2(b, a)] is an angle of the point [(a, b)] of the unit circle. *)
Lemma Ratan2_polar (a b : R) :
  a * a + b * b = 1 ->
  cos (Ratan2 b a) = a /\ sin (Ratan2 b a) = b.
Proof.
  intros H. unfold Ratan2.
  destruct (Rlt_dec 0 a) as [Ha|Ha]; [now apply cos_sin_atan_pos|].
  destruct (Rlt_dec a 0) as [Ha'|Ha'].
  - destruct (cos_sin_atan_neg a b H Ha') as [Hc Hs].
    destruct (Rle_dec 0 b).
    + rewrite neg_cos, neg_sin, Hc, Hs. split; ring.
    + unfold Rminus. rewrite cos_plus, sin_plus, cos_neg, sin_neg.
      rewrite cos_PI, sin_PI, Hc, Hs. split; ring.
  - assert (a = 0) by lra. subst a.
    assert (Hb : b * b = 1) by lra.
    destruct (Rlt_dec 0 b) as [Hb0|Hb0].
    + rewrite cos_PI2, sin_PI2. split; [reflexivity|nra].
    + destruct (Rlt_dec b 0) as [Hb1|Hb1].
      * rewrite cos_neg, sin_neg, cos_PI2, sin_PI2. split; [reflexivity|nra].
      * exfalso. nra.
Qed.

Lemma atan_nonpos (t : R) : t <= 0 -> atan t <= 0.
Proof.
  intros [Ht|Ht].
  - left. rewrite <- atan_0. now apply atan_increasing.
  - subst t. rewrite atan_0. lra.
Qed.

Lemma atan_pos (t : R) : 0 < t -> 0 < atan t.
Proof. intros Ht. rewrite <- atan_0. now apply atan_increasing. Qed.

(** Its range. *)
Lemma Ratan2_bound (a b : R) : - PI < Ratan2 b a <= PI.
Proof.
  pose proof PI_RGT_0 as HPI.
  unfold Ratan2.
  destruct (Rlt_dec 0 a) as [Ha|Ha].
  - pose proof (atan_bound (b / a)). lra.
  - destruct (Rlt_dec a 0) as [Ha'|Ha'].
    + pose proof (atan_bound (b / a)) as Hb.
      destruct (Rle_dec 0 b) as [Hb0|Hb0].
      * assert (atan (b / a) <= 0).
        { apply atan_nonpos. unfold Rdiv.
          assert (/ a < 0) by now apply Rinv_lt_0_compat. nra. }
        lra.
      * assert (0 < atan (b / a)).
        { apply atan_pos. unfold Rdiv.
          assert (/ a < 0) by now apply Rinv_lt_0_compat. nra. }
        lra.
    + destruct (Rlt_dec 0 b); [lra|]. destruct (Rlt_dec b 0); lra.
Qed.

Lemma cos_eq_1_unique (d : R) :
  - (2 * PI) < d < 2 * PI -> cos d = 1 -> d = 0.
Proof.
  intros Hd Hc. pose proof PI_RGT_0 as HPI.
  assert (Hs : sin d = 0).
  { apply Rsqr_0_uniq. rewrite sin2, Hc. unfold Rsqr. ring. }
  destruct (sin_eq_0_0 d Hs) as [k Hk].
  assert (Hk1 : (k < 2)%Z).
  { apply lt_IZR. apply Rmult_lt_reg_r with PI; lra. }
  assert (Hk2 : (-2 < k)%Z).
  { apply lt_IZR. apply Rmult_lt_reg_r with PI; lra. }
  assert (Hcases : (k = -1 \/ k = 0 \/ k = 1)%Z) by lia.
  destruct Hcases as [E|[E|E]]; subst k.
  - exfalso. replace d with (- PI) in Hc by lra.
    rewrite cos_neg, cos_PI in Hc. lra.
  - lra.
  - exfalso. replace d with PI in Hc by lra. rewrite cos_PI in Hc. lra.
Qed.

(** [atan2] recovers an angle of (-pi, pi], and no other. *)
Lemma Ratan2_sin_cos (theta : R) :
  - PI < theta <= PI -> Ratan2 (sin theta) (cos theta) = theta.
Proof.
  intros Ht.
  assert (H1 : cos theta * cos theta + sin theta * sin theta = 1).
  { pose proof (sin2_cos2 theta) as H. unfold Rsqr in H. lra. }
  destruct (Ratan2_polar _ _ H1) as [Hc Hs].
  pose proof (Ratan2_bound (cos theta) (sin theta)) as Hb.
  set (alpha := Ratan2 (sin theta) (cos theta)) in *.
  assert (Hd : alpha - theta = 0).
  { apply cos_eq_1_unique; [lra|].
    rewrite cos_minus, Hc, Hs. exact H1. }
  lra.
Qed.


(** *** The factories *)

Lemma norm2_pos (v : Vector R) :
  x v <> 0 \/ y v <> 0 \/ z v <> 0 -> sqrt (norm2 v) <> 0.
Proof.
  intros H. apply Rgt_not_eq, sqrt_lt_R0. rewrite norm2_eq.
  destruct H as [H|[H|H]]; nra.
Qed.

Lemma normalize_exact (v : Vector R) :
  x v <> 0 \/ y v <> 0 \/ z v <> 0 ->
  exists v',
    normalize v = Ok (tt, v')
    /\ v' = scale (1 / sqrt (norm2 v)) v
    /\ norm2 v' = 1.
Proof.
  intros H. pose proof (norm2_pos v H) as Hs.
  unfold normalize. change (int 1) with 1.
  rewrite (set_magnitude_exact v 1 Hs).
  eexists. split; [reflexivity|]. split.
  - now apply rescaled_is_scale.
  - rewrite (norm2_rescaled v 1 Hs). ring.
Qed.

Lemma random_2D_exact (g : rng R) :
  g 0%nat <> 0 \/ g 1%nat <> 0 ->
  exists vec,
    random_2D g = Ok (vec, fun n => g (S (S n)))
    /\ vec = scale (1 / sqrt (norm2 (mkVector (g 0%nat) (g 1%nat) 0)))
                   (mkVector (g 0%nat) (g 1%nat) 0)
    /\ norm2 vec = 1.
Proof.
  intros H.
  destruct (normalize_exact (mkVector (g 0%nat) (g 1%nat) 0))
    as [v' [Hn [Hv' H1]]]; [cbn; tauto|].
  exists v'. split; [|now split].
  unfold random_2D, bind, random_random, exec, Vector_init, ret.
  change (int 0) with 0. now rewrite Hn.
Qed.

Lemma random_3D_exact (g : rng R) :
  g 0%nat <> 0 \/ g 1%nat <> 0 \/ g 2%nat <> 0 ->
  exists vec,
    random_3D g = Ok (vec, fun n => g (S (S (S n))))
    /\ vec = scale (1 / sqrt (norm2 (mkVector (g 0%nat) (g 1%nat) (g 2%nat))))
                   (mkVector (g 0%nat) (g 1%nat) (g 2%nat))
    /\ norm2 vec = 1.
Proof.
  intros H.
  destruct (normalize_exact (mkVector (g 0%nat) (g 1%nat) (g 2%nat)))
    as [v' [Hn [Hv' H1]]]; [cbn; tauto|].
  exists v'. split; [|now split].
  unfold random_3D, bind, random_random, exec, Vector_init, ret.
  now rewrite Hn.
Qed.










(** When the values drawn, each in [0, 1), are not all zero, [random_2D]
    and [random_3D] return a vector of magnitude 1 with no negative
    component. *)
Theorem random_unit_vectors (g : rng R) :
  (forall n, 0 <= g n < 1) ->
  (g 0%nat <> 0 \/ g 1%nat <> 0 ->
   exists vec g',
     random_2D g = Ok (vec, g')
     /\ on vec magnitude = Ok 1
     /\ 0 <= x vec /\ 0 <= y vec /\ z vec = 0)
  /\ (g 0%nat <> 0 \/ g 1%nat <> 0 \/ g 2%nat <> 0 ->
      exists vec g',
        random_3D g = Ok (vec, g')
        /\ on vec magnitude = Ok 1
        /\ 0 <= x vec /\ 0 <= y vec /\ 0 <= z vec).
Proof.
  intros Hg. split; intros H.
  - destruct (random_2D_exact g H) as [vec [Hr [Hv H1]]].
    exists vec. eexists. split; [exact Hr|].
    split; [rewrite on_magnitude, H1; f_equal; apply sqrt_1|].
    assert (Hs : 0 < 1 / sqrt (norm2 (mkVector (g 0%nat) (g 1%nat) 0))).
    { apply Rdiv_lt_0_compat; [lra|]. apply sqrt_norm2_pos, norm2_pos.
      cbn. tauto. }
    pose proof (Hg 0%nat). pose proof (Hg 1%nat).
    rewrite Hv. unfold scale. cbn [x y z].
    change (@num_mul R Exact) with Rmult.
    repeat split; try (apply Rmult_le_pos; lra). ring.
  - destruct (random_3D_exact g H) as [vec [Hr [Hv H1]]].
    exists vec. eexists. split; [exact Hr|].
    split; [rewrite on_magnitude, H1; f_equal; apply sqrt_1|].
    assert (Hs : 0 < 1 / sqrt (norm2 (mkVector (g 0%nat) (g 1%nat) (g 2%nat)))).
    { apply Rdiv_lt_0_compat; [lra|]. apply sqrt_norm2_pos, norm2_pos.
      cbn. tauto. }
    pose proof (Hg 0%nat). pose proof (Hg 1%nat). pose proof (Hg 2%nat).
    rewrite Hv. unfold scale. cbn [x y z].
    change (@num_mul R Exact) with Rmult.
    repeat split; apply Rmult_le_pos; lra.
Qed.

Lemma random_unit_vectors_witness :
  exists vec g',
    random_3D (draws (1 / 2) (1 / 4) (3 / 4)) = Ok (vec, g')
    /\ on vec magnitude = Ok 1
    /\ 0 <= x vec /\ 0 <= y vec /\ 0 <= z vec.
Proof.
  apply (proj2 (random_unit_vectors (draws (1 / 2) (1 / 4) (3 / 4))
                  ltac:(intros [|[|n]]; cbn; lra))).
  left. cbn. lra.
Defined.

(** *** Concrete vectors *)

Lemma magnitude_000 : on (mkVector 0 0 0) magnitude = Ok 0.
Proof.
  rewrite on_magnitude, norm2_eq. cbn [x y z]. f_equal.
  replace (0 * 0 + 0 * 0 + 0 * 0) with 0 by ring. apply sqrt_0.
Qed.

Lemma angle_11 : on (mkVector 1 1 0) angle = Ok (PI / 4).
Proof.
  unfold on. rewrite angle_2D.
  - cbn. f_equal. unfold Ratan2.
    destruct (Rlt_dec 0 1) as [_|H]; [|exfalso; lra].
    replace (1 / 1) with 1 by field. apply atan_1.
  - apply negb_false_iff. now apply Reqb_true.
Qed.

(** *** Doctests and testable properties in exact arithmetic *)

(** [a + b - b == a] evaluates to [True]. *)
Theorem add_sub_cancels_exact (a b : Vector R) :
  (ab <-- on a (__add__ b);; r <-- on ab (__sub__ b);; on r (__eq__ a))%py
  = Ok true.
Proof.
  unfold on, __add__, __sub__, __eq__. run. cbn [x y z]. f_equal.
  rewrite !math_isclose_refl; [reflexivity| | |]; cbn; ring.
Qed.

Lemma angle_100 : on (mkVector 1 0 0) angle = Ok 0.
Proof.
  unfold on. rewrite angle_2D.
  - cbn. f_equal. unfold Ratan2.
    destruct (Rlt_dec 0 1) as [_|H]; [|exfalso; lra].
    replace (0 / 1) with 0 by field. apply atan_0.
  - apply negb_false_iff. now apply Reqb_true.
Qed.

Lemma angle_010 : on (mkVector 0 1 0) angle = Ok (PI / 2).
Proof.
  unfold on. rewrite angle_2D.
  - cbn. f_equal. unfold Ratan2.
    destruct (Rlt_dec 0 0) as [H|_]; [exfalso; lra|].
    destruct (Rlt_dec 0 1) as [_|H]; [reflexivity|exfalso; lra].
  - apply negb_false_iff. now apply Reqb_true.
Qed.

Lemma rotate_11_quarter :
  exists v', rotate (PI / 4) (mkVector 1 1 0) = Ok (tt, v')
             /\ on v' angle = Ok (PI / 2).
Proof.
  eexists. split; [apply rotate_exact|].
  cbn [x y z]. rewrite cos_PI4, sin_PI4.
  assert (Hs : 0 < 1 / sqrt 2).
  { apply Rdiv_lt_0_compat; [lra|]. apply sqrt_lt_R0. lra. }
  unfold on. rewrite angle_2D.
  - cbn. f_equal. unfold Ratan2.
    replace (1 * (1 / sqrt 2) - 1 * (1 / sqrt 2)) with 0 by ring.
    destruct (Rlt_dec 0 0) as [H|_]; [exfalso; lra|].
    destruct (Rlt_dec 0 (1 * (1 / sqrt 2) + 1 * (1 / sqrt 2))) as [_|H];
      [reflexivity|exfalso; lra].
  - apply negb_false_iff. now apply Reqb_true.
Qed.

Lemma angle_between_01_10 :
  on (mkVector 0 1 0) (angle_between (mkVector 1 0 0)) = Ok (PI / 2).
Proof.
  unfold on, angle_between, __matmul__, bind at 1.
  replace (dot (mkVector 1 0 0) (mkVector 0 1 0))
    with (@Ok (R * Vector R) (0, mkVector 0 1 0)).
  2:{ unfold dot. run. cbn. do 2 f_equal. ring. }
  unfold bind at 1. rewrite magnitude_exact.
  unfold bind at 1, eval. rewrite magnitude_exact.
  assert (E1 : sqrt (norm2 (mkVector 0 1 0)) = 1).
  { rewrite norm2_eq. cbn [x y z]. apply sqrt_lem_1; lra. }
  assert (E2 : sqrt (norm2 (mkVector 1 0 0)) = 1).
  { rewrite norm2_eq. cbn [x y z]. apply sqrt_lem_1; lra. }
  rewrite E1, E2. unfold bind, lift.
  rewrite truediv_exact by (cbn; lra).
  unfold math_acos.
  change (@num_ltb R Exact) with Rltb.
  replace (0 / (1 * 1)%py) with 0 by (cbn; field).
  rewrite (proj2 (Rltb_false 0 (int (-1)))) by (cbn; lra).
  rewrite (proj2 (Rltb_false (int 1) 0)) by (cbn; lra).
  cbn. now rewrite acos_0.
Qed.

(** The doctests of [angle], and the 90 degrees of [angle_between]. *)
Theorem doctests_angle_exact :
  on (mkVector 1 0 0) angle = Ok 0
  /\ on (mkVector 0 1 0) angle = Ok (PI / 2)
  /\ on (mkVector 1 1 1) angle = Raise ValueError
  /\ on (mkVector 1 1 0) angle = Ok (PI / 4)
  /\ (exists v', rotate (PI / 4) (mkVector 1 1 0) = Ok (tt, v')
                 /\ on v' angle = Ok (PI / 2))
  /\ on (mkVector 0 1 0) (angle_between (mkVector 1 0 0)) = Ok (PI / 2).
Proof.
  repeat split;
    auto using angle_100, angle_010, angle_11, rotate_11_quarter,
      angle_between_01_10.
  unfold on. rewrite angle_3D; [reflexivity|].
  apply negb_true_iff, Reqb_false. cbn. lra.
Qed.

(** The first doctest of [angle] that returns, and the one that raises. *)
Lemma angle_raises_iff_z_nonzero_witness :
  angle (mkVector 1 1 1) = Raise ValueError
  /\ angle (mkVector 1 1 0) = Ok (math_atan2 1 1, mkVector 1 1 0)
  /\ (forall theta, set_angle theta (mkVector 1 1 1) = Raise ValueError).
Proof.
  split; [|split].
  - apply (proj1 (angle_raises_iff_z_nonzero (mkVector 1 1 1))).
    apply negb_true_iff, Reqb_false. cbn. lra.
  - apply (proj1 (proj2 (angle_raises_iff_z_nonzero (mkVector 1 1 0)))).
    apply negb_false_iff, Reqb_true. reflexivity.
  - apply (proj2 (proj2 (angle_raises_iff_z_nonzero (mkVector 1 1 1)))).
    apply negb_true_iff, Reqb_false. cbn. lra.
Defined.

(** The zero vector cannot be normalized. *)
Lemma zero_division_raises_witness :
  (forall new, set_magnitude new (mkVector 0 0 0) = Raise ZeroDivisionError)
  /\ normalize (mkVector 0 0 0) = Raise ZeroDivisionError.
Proof.
  apply (proj1 (proj2 (proj2 (proj2
           (zero_division_raises (mkVector 0 0 0))))) 0).
  - exact magnitude_000.
  - apply Reqb_true. reflexivity.
Defined.

(** In exact arithmetic the product of two magnitudes is zero as soon as
    one of them is: [angle_between] raises when either vector has
    magnitude zero. *)
Lemma angle_between_zero_operand (v other : Vector R) :
  on v magnitude = Ok 0 \/ on other magnitude = Ok 0 ->
  angle_between other v = Raise ZeroDivisionError.
Proof.
  intros H.
  apply (angle_between_zero v other
           (sqrt (norm2 v)) (sqrt (norm2 other)));
    try apply on_magnitude.
  apply Reqb_true. rewrite !on_magnitude in H.
  change (sqrt (norm2 v) * sqrt (norm2 other) = 0).
  destruct H as [H|H].
  - assert (E : sqrt (norm2 v) = 0) by congruence. rewrite E. ring.
  - assert (E : sqrt (norm2 other) = 0) by congruence. rewrite E. ring.
Qed.

(** ** More of the algebra, in exact arithmetic *)

(** *** Addition, subtraction and scaling *)

(** In exact arithmetic [+] is commutative and associative with the zero
    vector as its unit, [a - a] is the zero vector, [a + (-b)] is [a - b],
    scaling distributes over [+], two scalings compose into the scaling by
    the product, and the scalings by 1 and 0 give [a] and the zero
    vector. *)
Theorem add_mul_laws_exact (a b c : Vector R) (k l : R) :
  on a (__add__ b) = on b (__add__ a)
  /\ (ab <-- on a (__add__ b);; on ab (__add__ c))%py
     = (bc <-- on b (__add__ c);; on a (__add__ bc))%py
  /\ on a (__add__ (mkVector 0 0 0)) = Ok a
  /\ on a (__sub__ a) = Ok (mkVector 0 0 0)
  /\ (nb <-- on b __neg__;; on a (__add__ nb))%py = on a (__sub__ b)
  /\ (ab <-- on a (__add__ b);; on ab (__mul__ (PFloat k)))%py
     = (ka <-- on a (__mul__ (PFloat k));;
        kb <-- on b (__mul__ (PFloat k));; on ka (__add__ kb))%py
  /\ (ka <-- on a (__mul__ (PFloat k));; on ka (__mul__ (PFloat l)))%py
     = on a (__mul__ (PFloat (k * l)))
  /\ on a (__mul__ (PInt 1)) = Ok a
  /\ on a (__mul__ (PInt 0)) = Ok (mkVector 0 0 0).
Proof.
  destruct a as [ax ay az], b as [bx b_y bz], c as [cx cy cz].
  unfold on, __add__, __sub__, __neg__, __rmul__, __mul__.
  cbn [isinstance_int isinstance_float orb operand].
  run. cbn [x y z num_add num_sub num_mul num_of_Z Exact int].
  repeat split; do 2 f_equal; ring.
Qed.

(** *** The dot product and the magnitude *)

Lemma inner_eq (a b : Vector R) :
  inner a b = x a * x b + y a * y b + z a * z b.
Proof. unfold inner. cbn. ring. Qed.

Lemma dot_self_inner (a : Vector R) : inner a a = norm2 a.
Proof. reflexivity. Qed.

Lemma on_dot (a b : Vector R) : on a (dot b) = Ok (inner a b).
Proof. reflexivity. Qed.

Lemma cauchy_schwarz (a b : Vector R) :
  inner a b * inner a b <= norm2 a * norm2 b.
Proof.
  rewrite !norm2_eq, inner_eq.
  destruct a as [ax ay az], b as [bx b_y bz]. cbn [x y z].
  apply Rge_le, Rminus_ge, Rle_ge.
  replace ((ax * ax + ay * ay + az * az) * (bx * bx + b_y * b_y + bz * bz)
           - (ax * bx + ay * b_y + az * bz) * (ax * bx + ay * b_y + az * bz))
    with (Rsqr (ay * bz - az * b_y) + Rsqr (az * bx - ax * bz)
          + Rsqr (ax * b_y - ay * bx)) by (unfold Rsqr; ring).
  repeat apply Rplus_le_le_0_compat; apply Rle_0_sqr.
Qed.

Lemma abs_inner_le (a b : Vector R) :
  Rabs (inner a b) <= sqrt (norm2 a) * sqrt (norm2 b).
Proof.
  rewrite <- sqrt_mult by apply norm2_nonneg.
  rewrite <- sqrt_sqr_abs.
  apply sqrt_le_1_alt, cauchy_schwarz.
Qed.

Lemma on_add (a b : Vector R) :
  on a (__add__ b) = Ok (mkVector (x a + x b) (y a + y b) (z a + z b)).
Proof. reflexivity. Qed.

Lemma on_mul_float (a : Vector R) (k : R) :
  on a (__mul__ (PFloat k)) = Ok (scale k a).
Proof. reflexivity. Qed.

(** In exact arithmetic [dot] is symmetric, [@] is [dot], [dot] is additive
    and homogeneous in its first operand, and the absolute value of
    [a . b] is at most the product of the two magnitudes. *)
Theorem dot_laws_exact (a b c : Vector R) (k : R) :
  on a (dot b) = on b (dot a)
  /\ on a (__matmul__ b) = on a (dot b)
  /\ (exists da db,
        on a (dot c) = Ok da /\ on b (dot c) = Ok db
        /\ (ab <-- on a (__add__ b);; on ab (dot c))%py = Ok (da + db)
        /\ (ka <-- on a (__mul__ (PFloat k));; on ka (dot c))%py
           = Ok (k * da))
  /\ (exists d ma mb,
        on a (dot b) = Ok d /\ on a magnitude = Ok ma
        /\ on b magnitude = Ok mb /\ Rabs d <= ma * mb).
Proof.
  split; [|split; [|split]].
  - rewrite !on_dot. f_equal. rewrite !inner_eq. ring.
  - reflexivity.
  - exists (inner a c), (inner b c).
    rewrite on_add, on_mul_float. cbn [and_then]. rewrite !on_dot.
    repeat split; f_equal; rewrite !inner_eq;
      cbn [x y z scale num_mul Exact]; ring.
  - exists (inner a b), (sqrt (norm2 a)), (sqrt (norm2 b)).
    rewrite on_dot, !on_magnitude. repeat split. apply abs_inner_le.
Qed.

Lemma norm2_zero_iff (a : Vector R) : norm2 a = 0 <-> a = mkVector 0 0 0.
Proof.
  rewrite norm2_eq. destruct a as [ax ay az]. cbn [x y z]. split.
  - intros H. assert (ax = 0) by nra. assert (ay = 0) by nra.
    assert (az = 0) by nra. now subst.
  - intros H. injection H as -> -> ->. ring.
Qed.

Lemma norm2_scale (k : R) (a : Vector R) :
  norm2 (scale k a) = (k * k) * norm2 a.
Proof. rewrite !norm2_eq. cbn. ring. Qed.

Lemma sqrt_norm2_add (a b : Vector R) :
  sqrt (norm2 (mkVector (x a + x b) (y a + y b) (z a + z b)))
  <= sqrt (norm2 a) + sqrt (norm2 b).
Proof.
  assert (Ha := sqrt_pos (norm2 a)). assert (Hb := sqrt_pos (norm2 b)).
  apply Rsqr_incr_0_var; [|lra].
  rewrite Rsqr_sqrt by apply norm2_nonneg.
  unfold Rsqr.
  pose proof (abs_inner_le a b) as Hc.
  pose proof (Rle_abs (inner a b)) as Hd.
  pose proof (sqrt_norm2_sqr a) as Ea. pose proof (sqrt_norm2_sqr b) as Eb.
  replace (norm2 (mkVector (x a + x b) (y a + y b) (z a + z b)))
    with (norm2 a + 2 * inner a b + norm2 b)
    by (rewrite !norm2_eq, inner_eq; cbn [x y z]; ring).
  nra.
Qed.

(** In exact arithmetic [magnitude] is a norm: it is not negative, is zero
    on the zero vector only, takes [k * a] to [|k|] times the magnitude of
    [a], and the magnitude of [a + b] is at most the sum of the two
    magnitudes; [abs] returns it and [magnitude_sq] its square. *)
Theorem magnitude_is_norm_exact (a b : Vector R) (k : R) :
  exists ma mb,
    on a magnitude = Ok ma /\ on b magnitude = Ok mb
    /\ on a __abs__ = Ok ma
    /\ on a magnitude_sq = Ok (ma * ma)
    /\ 0 <= ma
    /\ (ma = 0 <-> a = mkVector 0 0 0)
    /\ (ka <-- on a (__mul__ (PFloat k));; on ka magnitude)%py
       = Ok (Rabs k * ma)
    /\ (exists mab,
          (ab <-- on a (__add__ b);; on ab magnitude)%py = Ok mab
          /\ mab <= ma + mb).
Proof.
  exists (sqrt (norm2 a)), (sqrt (norm2 b)).
  rewrite on_add, on_mul_float. cbn [and_then]. rewrite !on_magnitude.
  split; [reflexivity|]. split; [reflexivity|]. split; [reflexivity|].
  split; [|split; [|split; [|split]]].
  - rewrite sqrt_norm2_sqr. reflexivity.
  - apply sqrt_pos.
  - rewrite <- norm2_zero_iff. split.
    + intros H. apply sqrt_eq_0; [apply norm2_nonneg|exact H].
    + intros ->. apply sqrt_0.
  - f_equal. rewrite norm2_scale, sqrt_mult_alt, sqrt_sqr_abs; [reflexivity|].
    apply Rle_0_sqr.
  - eexists. split; [reflexivity|]. apply sqrt_norm2_add.
Qed.

(** *** The angle between two vectors *)

Lemma cosine_bound (a b : Vector R) :
  0 < sqrt (norm2 a) * sqrt (norm2 b) ->
  -1 <= inner a b / (sqrt (norm2 a) * sqrt (norm2 b)) <= 1.
Proof.
  intros Hp. pose proof (abs_inner_le a b) as Hc.
  set (m := sqrt (norm2 a) * sqrt (norm2 b)) in *.
  assert (Hd : - m <= inner a b <= m).
  { revert Hc. unfold Rabs. destruct (Rcase_abs (inner a b)); lra. }
  split.
  - apply (Rmult_le_reg_r m); [exact Hp|].
    unfold Rdiv. rewrite Rmult_assoc, Rinv_l by lra. lra.
  - apply (Rmult_le_reg_r m); [exact Hp|].
    unfold Rdiv. rewrite Rmult_assoc, Rinv_l by lra. lra.
Qed.

Lemma angle_between_unfold (a b : Vector R) :
  0 < sqrt (norm2 a) * sqrt (norm2 b) ->
  on a (angle_between b) =
  Ok (acos (inner a b / (sqrt (norm2 a) * sqrt (norm2 b)))).
Proof.
  intros Hp. pose proof (cosine_bound a b Hp) as Hq.
  assert (Hm : sqrt (norm2 a) * sqrt (norm2 b) <> 0) by lra.
  unfold on, angle_between, __matmul__, bind at 1. rewrite dot_inner.
  unfold bind at 1. rewrite magnitude_exact.
  unfold bind at 1, eval. rewrite magnitude_exact.
  unfold bind, lift. rewrite truediv_exact by exact Hm.
  unfold math_acos.
  change (@num_ltb R Exact) with Rltb.
  change (@num_mul R Exact) with Rmult.
  set (q := inner a b / (sqrt (norm2 a) * sqrt (norm2 b))) in *.
  change (int (-1)) with (-1). change (int 1) with 1.
  rewrite (proj2 (Rltb_false q (-1))) by lra.
  rewrite (proj2 (Rltb_false 1 q)) by lra.
  reflexivity.
Qed.

Lemma magnitudes_nonzero (a b : Vector R) :
  a <> mkVector 0 0 0 -> b <> mkVector 0 0 0 ->
  0 < sqrt (norm2 a) * sqrt (norm2 b).
Proof.
  intros Ha Hb.
  assert (Na : norm2 a <> 0) by now rewrite norm2_zero_iff.
  assert (Nb : norm2 b <> 0) by now rewrite norm2_zero_iff.
  pose proof (norm2_nonneg a). pose proof (norm2_nonneg b).
  apply Rmult_lt_0_compat; apply sqrt_lt_R0; lra.
Qed.

(** In exact arithmetic [angle_between] of two vectors that are not zero
    returns the angle [t] in [0, pi] with [a . b = |a| |b| cos t]; it is
    the same from either side, and 0 between a vector and itself. *)
Theorem angle_between_exact (a b : Vector R) :
  a <> mkVector 0 0 0 -> b <> mkVector 0 0 0 ->
  exists t d ma mb,
    on a (angle_between b) = Ok t
    /\ on a (dot b) = Ok d /\ on a magnitude = Ok ma
    /\ on b magnitude = Ok mb
    /\ 0 <= t <= PI
    /\ d = ma * mb * cos t
    /\ on b (angle_between a) = Ok t
    /\ on a (angle_between a) = Ok 0.
Proof.
  intros Ha Hb.
  pose proof (magnitudes_nonzero a b Ha Hb) as Hab.
  pose proof (magnitudes_nonzero a a Ha Ha) as Haa.
  exists (acos (inner a b / (sqrt (norm2 a) * sqrt (norm2 b)))),
    (inner a b), (sqrt (norm2 a)), (sqrt (norm2 b)).
  rewrite !angle_between_unfold, !on_magnitude by lra.
  split; [reflexivity|]. split; [reflexivity|].
  split; [reflexivity|]. split; [reflexivity|].
  split; [apply acos_bound|].
  pose proof (cosine_bound a b Hab) as Hq.
  split; [|split].
  - rewrite cos_acos by exact Hq. field.
    split; intros E; rewrite E in Hab; lra.
  - do 2 f_equal. rewrite !inner_eq. f_equal; ring.
  - f_equal. rewrite dot_self_inner, sqrt_norm2_sqr.
    unfold Rdiv. rewrite Rinv_r; [apply acos_1|].
    rewrite sqrt_norm2_sqr in Haa. lra.
Qed.

Lemma angle_between_exact_witness :
  exists t d ma mb,
    on (mkVector 0 1 0) (angle_between (mkVector 1 0 0)) = Ok t
    /\ on (mkVector 0 1 0) (dot (mkVector 1 0 0)) = Ok d
    /\ on (mkVector 0 1 0) magnitude = Ok ma
    /\ on (mkVector 1 0 0) magnitude = Ok mb
    /\ 0 <= t <= PI
    /\ d = ma * mb * cos t
    /\ on (mkVector 1 0 0) (angle_between (mkVector 0 1 0)) = Ok t
    /\ on (mkVector 0 1 0) (angle_between (mkVector 0 1 0)) = Ok 0.
Proof.
  apply (angle_between_exact (mkVector 0 1 0) (mkVector 1 0 0)).
  - intros E. injection E as E. lra.
  - intros E. injection E as E. lra.
Defined.

(** *** Rotations and the angle *)

Lemma Ratan2_scale (k a b : R) :
  0 < k -> Ratan2 (k * b) (k * a) = Ratan2 b a.
Proof.
  intros Hk. unfold Ratan2.
  assert (Hq : a <> 0 -> k * b / (k * a) = b / a) by (intros; field; lra).
  destruct (Rlt_dec 0 a) as [Ha|Ha].
  - destruct (Rlt_dec 0 (k * a)) as [_|N]; [|exfalso; nra].
    now rewrite Hq by lra.
  - destruct (Rlt_dec 0 (k * a)) as [P|_]; [exfalso; nra|].
    destruct (Rlt_dec a 0) as [Ha'|Ha'].
    + destruct (Rlt_dec (k * a) 0) as [_|N]; [|exfalso; nra].
      rewrite Hq by lra.
      destruct (Rle_dec 0 b), (Rle_dec 0 (k * b));
        try reflexivity; exfalso; nra.
    + destruct (Rlt_dec (k * a) 0) as [P|_]; [exfalso; nra|].
      destruct (Rlt_dec 0 b), (Rlt_dec 0 (k * b));
        try reflexivity; try (exfalso; nra).
      destruct (Rlt_dec b 0), (Rlt_dec (k * b) 0);
        try reflexivity; exfalso; nra.
Qed.

(** A point of the plane that is not the origin, in polar form. *)
Lemma Ratan2_polar_form (a b : R) :
  0 < a * a + b * b ->
  a = sqrt (a * a + b * b) * cos (Ratan2 b a)
  /\ b = sqrt (a * a + b * b) * sin (Ratan2 b a).
Proof.
  intros Hp. set (r := sqrt (a * a + b * b)).
  assert (Hr : 0 < r) by now apply sqrt_lt_R0.
  assert (Hrr : r * r = a * a + b * b) by (apply sqrt_sqrt; lra).
  assert (Hu : (/ r * a) * (/ r * a) + (/ r * b) * (/ r * b) = 1).
  { replace ((/ r * a) * (/ r * a) + (/ r * b) * (/ r * b))
      with ((a * a + b * b) / (r * r)) by (field; lra).
    rewrite Hrr. field. lra. }
  destruct (Ratan2_polar _ _ Hu) as [Hc Hs].
  rewrite Ratan2_scale in Hc, Hs by now apply Rinv_0_lt_compat.
  rewrite Hc, Hs. split; field; lra.
Qed.

Lemma Ratan2_sin_cos_scaled (r t : R) :
  0 < r -> - PI < t <= PI -> Ratan2 (r * sin t) (r * cos t) = t.
Proof.
  intros Hr Ht. rewrite Ratan2_scale by exact Hr. now apply Ratan2_sin_cos.
Qed.

Lemma plane_norm2 (v : Vector R) :
  z v = 0 -> norm2 v = x v * x v + y v * y v.
Proof. intros Hz. rewrite norm2_eq, Hz. ring. Qed.

Lemma plane_nonzero (v : Vector R) :
  z v = 0 -> v <> mkVector 0 0 0 -> 0 < x v * x v + y v * y v.
Proof.
  intros Hz Hv. rewrite <- plane_norm2 by exact Hz.
  pose proof (norm2_nonneg v) as Hn.
  assert (norm2 v <> 0) by now rewrite norm2_zero_iff.
  lra.
Qed.

Lemma on_angle_plane (v : Vector R) :
  z v = 0 -> on v angle = Ok (Ratan2 (y v) (x v)).
Proof.
  intros Hz. unfold on. rewrite angle_2D; [reflexivity|].
  apply negb_false_iff. now apply Reqb_true.
Qed.

(** A rotated vector of the plane, in polar form. *)
Lemma rotated_polar (v : Vector R) (theta : R) :
  z v = 0 -> v <> mkVector 0 0 0 ->
  rotate theta v =
  Ok (tt, mkVector
            (sqrt (norm2 v) * cos (Ratan2 (y v) (x v) + theta))
            (sqrt (norm2 v) * sin (Ratan2 (y v) (x v) + theta)) 0).
Proof.
  intros Hz Hv. rewrite rotate_exact, Hz. do 2 f_equal.
  rewrite (plane_norm2 v Hz).
  destruct (Ratan2_polar_form (x v) (y v) (plane_nonzero v Hz Hv)) as [Ex Ey].
  set (r := sqrt (x v * x v + y v * y v)) in *.
  set (al := Ratan2 (y v) (x v)) in *.
  rewrite cos_plus, sin_plus.
  f_equal; [rewrite Ex at 1; rewrite Ey at 1|rewrite Ex at 1; rewrite Ey at 1];
    ring.
Qed.

(** In exact arithmetic rotations compose by adding their angles; the
    rotations by 0 and by a full turn change nothing, and the rotation by
    the opposite angle undoes a rotation. *)
Theorem rotate_composes_exact (v : Vector R) (a b : R) :
  exists v1,
    rotate a v = Ok (tt, v1)
    /\ rotate b v1 = rotate (a + b) v
    /\ rotate (- a) v1 = Ok (tt, v)
    /\ rotate 0 v = Ok (tt, v)
    /\ rotate (2 * PI) v = Ok (tt, v).
Proof.
  eexists. split; [apply rotate_exact|].
  rewrite !rotate_exact. cbn [x y z].
  pose proof (sin2_cos2 a) as H. unfold Rsqr in H.
  destruct v as [vx vy vz]. cbn [x y z].
  split; [|split; [|split]]; do 2 f_equal.
  - rewrite cos_plus, sin_plus. f_equal; ring.
  - rewrite cos_neg, sin_neg. f_equal.
    + transitivity (vx * (sin a * sin a + cos a * cos a)); [ring|].
      rewrite H. ring.
    + transitivity (vy * (sin a * sin a + cos a * cos a)); [ring|].
      rewrite H. ring.
  - rewrite cos_0, sin_0. f_equal; ring.
  - rewrite cos_2PI, sin_2PI. f_equal; ring.
Qed.

(** In exact arithmetic, on a vector of the plane that is not zero,
    [rotate(theta)] adds [theta] to the angle, brought back into
    (-pi, pi] by a full turn when the sum leaves that range. *)
Theorem rotate_adds_to_angle_exact (v : Vector R) (theta : R) :
  z v = 0 -> v <> mkVector 0 0 0 ->
  exists al v',
    on v angle = Ok al /\ - PI < al <= PI
    /\ rotate theta v = Ok (tt, v')
    /\ (- PI < al + theta <= PI -> on v' angle = Ok (al + theta))
    /\ (PI < al + theta <= 3 * PI ->
        on v' angle = Ok (al + theta - 2 * PI))
    /\ (- (3 * PI) < al + theta <= - PI ->
        on v' angle = Ok (al + theta + 2 * PI)).
Proof.
  intros Hz Hv. exists (Ratan2 (y v) (x v)). eexists.
  split; [now apply on_angle_plane|].
  split; [apply Ratan2_bound|].
  split; [now apply rotated_polar|].
  assert (Hr : 0 < sqrt (norm2 v)).
  { apply sqrt_lt_R0. rewrite plane_norm2 by exact Hz.
    now apply plane_nonzero. }
  set (al := Ratan2 (y v) (x v)). set (r := sqrt (norm2 v)) in *.
  rewrite on_angle_plane by reflexivity. cbn [x y z].
  split; [|split]; intros Ht; f_equal.
  - now apply Ratan2_sin_cos_scaled.
  - rewrite <- (Ratan2_sin_cos_scaled r (al + theta - 2 * PI)) at 1
      by (try exact Hr; lra).
    rewrite sin_minus, cos_minus, sin_2PI, cos_2PI. f_equal; ring.
  - rewrite <- (Ratan2_sin_cos_scaled r (al + theta + 2 * PI)) at 1
      by (try exact Hr; lra).
    rewrite (sin_plus (al + theta)), (cos_plus (al + theta)).
    rewrite sin_2PI, cos_2PI. f_equal; ring.
Qed.

Lemma rotate_adds_to_angle_exact_witness :
  exists al v',
    on (mkVector 1 0 0) angle = Ok al /\ - PI < al <= PI
    /\ rotate PI (mkVector 1 0 0) = Ok (tt, v')
    /\ (- PI < al + PI <= PI -> on v' angle = Ok (al + PI))
    /\ (PI < al + PI <= 3 * PI -> on v' angle = Ok (al + PI - 2 * PI))
    /\ (- (3 * PI) < al + PI <= - PI ->
        on v' angle = Ok (al + PI + 2 * PI)).
Proof.
  apply (rotate_adds_to_angle_exact (mkVector 1 0 0) PI).
  - reflexivity.
  - intros E. injection E as E. lra.
Defined.

Lemma set_angle_polar (v : Vector R) (theta : R) :
  z v = 0 ->
  set_angle theta v =
  Ok (tt, mkVector (sqrt (norm2 v) * cos theta)
                   (sqrt (norm2 v) * sin theta) 0).
Proof.
  intros Hz. unfold set_angle, bind. rewrite angle_2D.
  2:{ apply negb_false_iff. now apply Reqb_true. }
  change (math_atan2 (y v) (x v)) with (Ratan2 (y v) (x v)).
  change (@num_sub R Exact) with Rminus.
  destruct (Req_dec (norm2 v) 0) as [E|E].
  - rewrite E, sqrt_0. apply norm2_zero_iff in E. subst v.
    rewrite rotate_exact. cbn [x y z]. do 2 f_equal. f_equal; ring.
  - assert (Hv : v <> mkVector 0 0 0) by now rewrite <- norm2_zero_iff.
    rewrite (rotated_polar v _ Hz Hv).
    replace (Ratan2 (y v) (x v) + (theta - Ratan2 (y v) (x v)))
      with theta by ring.
    reflexivity.
Qed.

(** In exact arithmetic, assigning [angle] to a vector of the plane turns
    it to [(m cos theta, m sin theta)] with [m] its magnitude, which it
    keeps; when the vector is not zero and the angle is one of (-pi, pi],
    [angle] reads the assigned value back.  The zero vector stays zero,
    and its angle reads 0. *)
Theorem set_angle_round_trip_exact (v : Vector R) (theta : R) :
  z v = 0 ->
  exists m v',
    on v magnitude = Ok m
    /\ set_angle theta v = Ok (tt, v')
    /\ v' = mkVector (m * cos theta) (m * sin theta) 0
    /\ on v' magnitude = Ok m
    /\ (v <> mkVector 0 0 0 -> - PI < theta <= PI ->
        on v' angle = Ok theta)
    /\ (v = mkVector 0 0 0 ->
        v' = mkVector 0 0 0 /\ on v' angle = Ok 0).
Proof.
  intros Hz. exists (sqrt (norm2 v)). eexists.
  split; [apply on_magnitude|].
  split; [now apply set_angle_polar|]. split; [reflexivity|].
  split; [|split].
  - rewrite !on_magnitude. f_equal. f_equal.
    pose proof (sin2_cos2 theta) as H. unfold Rsqr in H.
    pose proof (sqrt_norm2_sqr v) as Hs.
    set (r := sqrt (norm2 v)) in *.
    rewrite norm2_eq. cbn [x y z]. rewrite <- Hs.
    transitivity (r * r * (sin theta * sin theta + cos theta * cos theta));
      [ring|].
    rewrite H. ring.
  - intros Hv Ht.
    assert (Hr : 0 < sqrt (norm2 v)).
    { apply sqrt_lt_R0. rewrite plane_norm2 by exact Hz.
      now apply plane_nonzero. }
    rewrite on_angle_plane by reflexivity. cbn [x y z]. f_equal.
    now apply Ratan2_sin_cos_scaled.
  - intros ->.
    assert (E : sqrt (norm2 (mkVector 0 0 0)) = 0).
    { rewrite norm2_eq. cbn [x y z]. apply sqrt_lem_1; lra. }
    rewrite E, !Rmult_0_l. split; [reflexivity|].
    rewrite on_angle_plane by reflexivity. cbn [x y z]. f_equal.
    unfold Ratan2.
    destruct (Rlt_dec 0 0) as [P|_]; [lra|]. reflexivity.
Qed.

Lemma set_angle_round_trip_exact_witness :
  exists m v',
    on (mkVector 3 4 0) magnitude = Ok m
    /\ set_angle (PI / 2) (mkVector 3 4 0) = Ok (tt, v')
    /\ v' = mkVector (m * cos (PI / 2)) (m * sin (PI / 2)) 0
    /\ on v' magnitude = Ok m
    /\ (mkVector 3 4 0 <> mkVector 0 0 0 -> - PI < PI / 2 <= PI ->
        on v' angle = Ok (PI / 2))
    /\ (mkVector 3 4 0 = mkVector 0 0 0 ->
        v' = mkVector 0 0 0 /\ on v' angle = Ok 0).
Proof.
  apply (set_angle_round_trip_exact (mkVector 3 4 0) (PI / 2)).
  reflexivity.
Defined.

(** *** Setting the magnitude *)

Lemma nonzero_magnitude (v : Vector R) :
  v <> mkVector 0 0 0 -> 0 < sqrt (norm2 v).
Proof.
  intros Hv. apply sqrt_lt_R0.
  pose proof (norm2_nonneg v).
  assert (norm2 v <> 0) by now rewrite norm2_zero_iff.
  lra.
Qed.

Lemma set_magnitude_scale (v : Vector R) (m : R) :
  v <> mkVector 0 0 0 ->
  set_magnitude m v = Ok (tt, scale (m / sqrt (norm2 v)) v).
Proof.
  intros Hv. pose proof (nonzero_magnitude v Hv) as Hs.
  rewrite set_magnitude_exact by lra.
  now rewrite rescaled_is_scale by lra.
Qed.

Lemma sqrt_norm2_scale (k : R) (v : Vector R) :
  sqrt (norm2 (scale k v)) = Rabs k * sqrt (norm2 v).
Proof.
  rewrite norm2_scale, sqrt_mult_alt, sqrt_sqr_abs; [reflexivity|].
  apply Rle_0_sqr.
Qed.

Lemma scale_scale (k l : R) (v : Vector R) :
  scale l (scale k v) = scale (k * l) v.
Proof. unfold scale. cbn. f_equal; ring. Qed.

Lemma scale_nonzero (k : R) (v : Vector R) :
  k <> 0 -> v <> mkVector 0 0 0 -> scale k v <> mkVector 0 0 0.
Proof.
  intros Hk Hv E. apply Hv. apply norm2_zero_iff.
  apply norm2_zero_iff in E. rewrite norm2_scale in E.
  assert (0 < k * k) by nra. pose proof (norm2_nonneg v). nra.
Qed.

(** In exact arithmetic, on a vector that is not zero: a magnitude set
    after a positive one gives what setting it at once gives, so
    [normalize] repeated changes nothing more; a magnitude of 0 gives the
    zero vector, on which no magnitude can be set any more. *)
Theorem set_magnitude_composes_exact (v : Vector R) (m1 m2 : R) :
  v <> mkVector 0 0 0 -> 0 < m1 ->
  (exists v1,
      set_magnitude m1 v = Ok (tt, v1)
      /\ set_magnitude m2 v1 = set_magnitude m2 v)
  /\ (exists u,
        normalize v = Ok (tt, u) /\ on u magnitude = Ok 1
        /\ normalize u = Ok (tt, u))
  /\ (set_magnitude 0 v = Ok (tt, mkVector 0 0 0)
      /\ forall m, set_magnitude m (mkVector 0 0 0)
                   = Raise ZeroDivisionError).
Proof.
  intros Hv Hm. pose proof (nonzero_magnitude v Hv) as Hs.
  assert (Hcomp : forall k l, 0 < k ->
            set_magnitude l (scale (k / sqrt (norm2 v)) v)
            = set_magnitude l v).
  { intros k l Hk.
    assert (Hq : 0 < k / sqrt (norm2 v)) by now apply Rdiv_lt_0_compat.
    rewrite !set_magnitude_scale;
      [|exact Hv|apply scale_nonzero; [lra|exact Hv]].
    rewrite scale_scale, sqrt_norm2_scale, Rabs_pos_eq by lra.
    do 3 f_equal. field. lra. }
  split; [|split].
  - eexists. split; [now apply set_magnitude_scale|]. now apply Hcomp.
  - exists (scale (1 / sqrt (norm2 v)) v).
    assert (En : normalize v = Ok (tt, scale (1 / sqrt (norm2 v)) v))
      by now apply set_magnitude_scale.
    split; [exact En|]. split.
    + rewrite on_magnitude, sqrt_norm2_scale. f_equal.
      rewrite Rabs_pos_eq by (apply Rlt_le, Rdiv_lt_0_compat; lra).
      field. lra.
    + unfold normalize in *. change (int 1) with 1 in *.
      rewrite Hcomp by lra. exact En.
  - split.
    + rewrite set_magnitude_scale by exact Hv. do 2 f_equal.
      unfold scale. f_equal; unfold Rdiv; cbn; ring.
    + intros m. apply (set_magnitude_zero _ 0).
      * rewrite on_magnitude. f_equal. rewrite norm2_eq. cbn [x y z].
        apply sqrt_lem_1; lra.
      * apply Reqb_true. reflexivity.
Qed.

Lemma set_magnitude_composes_exact_witness :
  (exists v1,
      set_magnitude 10 (mkVector 3 4 0) = Ok (tt, v1)
      /\ set_magnitude 2 v1 = set_magnitude 2 (mkVector 3 4 0))
  /\ (exists u,
        normalize (mkVector 3 4 0) = Ok (tt, u) /\ on u magnitude = Ok 1
        /\ normalize u = Ok (tt, u))
  /\ (set_magnitude 0 (mkVector 3 4 0) = Ok (tt, mkVector 0 0 0)
      /\ forall m, set_magnitude m (mkVector 0 0 0)
                   = Raise ZeroDivisionError).
Proof.
  apply (set_magnitude_composes_exact (mkVector 3 4 0) 10 2).
  - intros E. injection E as E. lra.
  - lra.
Defined.

(** In exact arithmetic, assigning [magnitude_sq] a value that is not
    negative, on a vector that is not zero, is read back by
    [magnitude_sq], and [magnitude] reads its root. *)
Theorem set_magnitude_sq_round_trip_exact (v : Vector R) (s : R) :
  v <> mkVector 0 0 0 -> 0 <= s ->
  exists v',
    set_magnitude_sq s v = Ok (tt, v')
    /\ on v' magnitude_sq = Ok s
    /\ on v' magnitude = Ok (sqrt s)
    /\ v' = scale (sqrt s / sqrt (norm2 v)) v.
Proof.
  intros Hv Hs. pose proof (nonzero_magnitude v Hv) as Hn.
  exists (scale (sqrt s / sqrt (norm2 v)) v).
  assert (Em : on (scale (sqrt s / sqrt (norm2 v)) v) magnitude
               = Ok (sqrt s)).
  { rewrite on_magnitude, sqrt_norm2_scale. f_equal.
    rewrite Rabs_pos_eq.
    - field. lra.
    - apply Rmult_le_pos; [apply sqrt_pos|].
      apply Rlt_le, Rinv_0_lt_compat, Hn. }
  split; [|split; [|split]].
  - unfold set_magnitude_sq, bind, lift.
    rewrite math_sqrt_exact by exact Hs.
    now apply set_magnitude_scale.
  - change (on (scale (sqrt s / sqrt (norm2 v)) v) magnitude_sq)
      with (@Ok R (norm2 (scale (sqrt s / sqrt (norm2 v)) v))).
    f_equal. rewrite norm2_scale.
    pose proof (sqrt_norm2_sqr v) as Hr.
    set (r := sqrt (norm2 v)) in *. rewrite <- Hr.
    transitivity (sqrt s * sqrt s); [field; lra|].
    now apply sqrt_sqrt.
  - exact Em.
  - reflexivity.
Qed.

Lemma set_magnitude_sq_round_trip_exact_witness :
  exists v',
    set_magnitude_sq 4 (mkVector 3 4 0) = Ok (tt, v')
    /\ on v' magnitude_sq = Ok 4
    /\ on v' magnitude = Ok (sqrt 4)
    /\ v' = scale (sqrt 4 / sqrt (norm2 (mkVector 3 4 0))) (mkVector 3 4 0).
Proof.
  apply (set_magnitude_sq_round_trip_exact (mkVector 3 4 0) 4).
  - intros E. injection E as E. lra.
  - lra.
Defined.

(** *** [limit] *)

(** In exact arithmetic, with bounds [0 <= lower <= upper] and a vector
    that is not zero, [limit] leaves a magnitude within the bounds and a
    vector along the one it was given; a second call changes nothing. *)
Theorem limit_within_bounds_exact (v : Vector R) (lo hi : R) :
  v <> mkVector 0 0 0 -> 0 <= lo -> lo <= hi ->
  exists v' m',
    limit (Some hi) (Some lo) v = Ok (tt, v')
    /\ on v' magnitude = Ok m' /\ lo <= m' <= hi
    /\ (exists k, 0 <= k /\ v' = scale k v)
    /\ limit (Some hi) (Some lo) v' = Ok (tt, v').
Proof.
  intros Hv Hlo Hhi. pose proof (nonzero_magnitude v Hv) as Hm.
  assert (Hstay : forall w, lo <= sqrt (norm2 w) <= hi ->
                    limit (Some hi) (Some lo) w = Ok (tt, w)).
  { intros w Hw. rewrite limit_unfold.
    rewrite (proj2 (Rltb_false _ _)) by lra.
    rewrite (proj2 (Rltb_false _ _)) by lra. reflexivity. }
  assert (Hset : forall m, 0 <= m ->
            sqrt (norm2 (scale (m / sqrt (norm2 v)) v)) = m).
  { intros m H0. rewrite sqrt_norm2_scale, Rabs_pos_eq.
    - field. lra.
    - apply Rmult_le_pos; [exact H0|]. apply Rlt_le, Rinv_0_lt_compat, Hm. }
  destruct (Rlt_dec (sqrt (norm2 v)) lo) as [H1|H1].
  - exists (scale (lo / sqrt (norm2 v)) v), lo.
    rewrite limit_unfold, (proj2 (Rltb_true _ _)) by exact H1.
    rewrite on_magnitude, Hset by exact Hlo.
    split; [now apply set_magnitude_scale|]. split; [reflexivity|].
    split; [lra|]. split.
    + eexists. split; [|reflexivity].
      apply Rmult_le_pos; [exact Hlo|]. apply Rlt_le, Rinv_0_lt_compat, Hm.
    + apply Hstay. rewrite Hset by exact Hlo. lra.
  - destruct (Rlt_dec hi (sqrt (norm2 v))) as [H2|H2].
    + exists (scale (hi / sqrt (norm2 v)) v), hi.
      rewrite limit_unfold, (proj2 (Rltb_false _ _)) by exact H1.
      rewrite (proj2 (Rltb_true _ _)) by exact H2.
      rewrite on_magnitude, Hset by lra.
      split; [now apply set_magnitude_scale|]. split; [reflexivity|].
      split; [lra|]. split.
      * eexists. split; [|reflexivity].
        apply Rmult_le_pos; [lra|]. apply Rlt_le, Rinv_0_lt_compat, Hm.
      * apply Hstay. rewrite Hset by lra. lra.
    + exists v, (sqrt (norm2 v)).
      rewrite Hstay by lra. rewrite on_magnitude.
      split; [reflexivity|]. split; [reflexivity|]. split; [lra|].
      split; [|reflexivity].
      exists 1. split; [lra|].
      destruct v as [vx vy vz]. unfold scale. cbn. f_equal; ring.
Qed.

Lemma limit_within_bounds_exact_witness :
  exists v' m',
    limit (Some 2) (Some 1) (mkVector 3 4 0) = Ok (tt, v')
    /\ on v' magnitude = Ok m' /\ 1 <= m' <= 2
    /\ (exists k, 0 <= k /\ v' = scale k (mkVector 3 4 0))
    /\ limit (Some 2) (Some 1) v' = Ok (tt, v').
Proof.
  apply (limit_within_bounds_exact (mkVector 3 4 0) 1 2).
  - intros E. injection E as E. lra.
  - lra.
  - lra.
Defined.

(** In exact arithmetic the zero vector cannot be brought up to a positive
    lower bound: [limit] raises [ZeroDivisionError], whatever the upper
    bound. *)
Theorem limit_zero_vector_raises_exact (upper : option R) (lo : R) :
  0 < lo ->
  limit upper (Some lo) (mkVector 0 0 0) = Raise ZeroDivisionError.
Proof.
  intros Hlo.
  assert (E : sqrt (norm2 (mkVector 0 0 0)) = 0).
  { rewrite norm2_eq. cbn [x y z]. apply sqrt_lem_1; lra. }
  rewrite limit_unfold, E, (proj2 (Rltb_true _ _)) by exact Hlo.
  apply (set_magnitude_zero _ 0).
  - now rewrite on_magnitude, E.
  - apply Reqb_true. reflexivity.
Qed.

Lemma limit_zero_vector_raises_exact_witness :
  limit (Some 5) (Some 1) (mkVector 0 0 0) = Raise ZeroDivisionError.
Proof. apply (limit_zero_vector_raises_exact (Some 5) 1). lra. Defined.

(** *** Equality *)

Lemma Rleb_true (a b : R) : Rleb a b = true <-> a <= b.
Proof. unfold Rleb. destruct (Rle_dec a b); split; intros; try lra; easy. Qed.

Lemma math_isclose_iff (a b : R) :
  math_isclose a b = true <-> within_rel_tol a b.
Proof.
  unfold math_isclose, within_rel_tol.
  change (@num_eqb R Exact) with Reqb. change (@num_leb R Exact) with Rleb.
  change (@num_abs R Exact) with Rabs. change (@num_sub R Exact) with Rminus.
  change (@num_mul R Exact) with Rmult.
  change (@num_is_inf R Exact a) with false.
  change (@num_is_inf R Exact b) with false.
  change (@rel_tol R Exact) with (1 / 1000000000). change (int 0) with 0.
  cbn [orb].
  assert (Ea : Rabs (1 / 1000000000 * a) = Rabs a / 1000000000).
  { rewrite Rabs_mult, Rabs_pos_eq by lra. lra. }
  assert (Eb : Rabs (1 / 1000000000 * b) = Rabs b / 1000000000).
  { rewrite Rabs_mult, Rabs_pos_eq by lra. lra. }
  rewrite Ea, Eb, (Rabs_minus_sym a b).
  pose proof (Rabs_pos a) as Pa. pose proof (Rabs_pos b) as Pb.
  pose proof (Rabs_pos (b - a)) as Pd.
  destruct (Reqb a b) eqn:E.
  - apply Reqb_true in E. subst b. split; [intros _|reflexivity].
    replace (a - a) with 0 by ring. rewrite Rabs_R0.
    unfold Rmax. destruct (Rle_dec (Rabs a) (Rabs a)); lra.
  - rewrite !orb_true_iff, !Rleb_true.
    unfold Rmax. destruct (Rle_dec (Rabs a) (Rabs b)); split; intros H.
    + destruct H as [[H|H]|H]; lra.
    + left. left. lra.
    + destruct H as [[H|H]|H]; lra.
    + left. right. lra.
Qed.

Lemma eq_unfold (a b : Vector R) :
  on a (__eq__ b) =
  Ok (math_isclose (x a) (x b)
      && (math_isclose (y a) (y b) && (math_isclose (z a) (z b) && true))).
Proof. reflexivity. Qed.

Lemma within_rel_tol_zero (a : R) : within_rel_tol a 0 <-> a = 0.
Proof.
  unfold within_rel_tol. rewrite Rminus_0_r, Rabs_R0.
  pose proof (Rabs_pos a) as Pa.
  unfold Rmax. destruct (Rle_dec (Rabs a) 0) as [H|H]; split; intros H';
    try (subst a; rewrite Rabs_R0; lra).
  - assert (Rabs a = 0) by lra.
    destruct (Req_dec a 0) as [E|E]; [exact E|].
    apply Rabs_no_R0 in E. contradiction.
  - exfalso. lra.
Qed.

(** In exact arithmetic [==] holds exactly when each pair of components
    differs by at most a [1e-09]-th of the larger of the two in absolute
    value.  It is reflexive and symmetric, it tells every vector that is
    not zero from the zero vector (the tolerance is relative), and it is
    not transitive. *)
Theorem eq_relative_tolerance_exact :
  (forall a b : Vector R,
      on a (__eq__ b) = Ok true
      <-> within_rel_tol (x a) (x b) /\ within_rel_tol (y a) (y b)
          /\ within_rel_tol (z a) (z b))
  /\ (forall a : Vector R, on a (__eq__ a) = Ok true)
  /\ (forall a b : Vector R, on a (__eq__ b) = on b (__eq__ a))
  /\ (forall a : Vector R,
        on a (__eq__ (mkVector 0 0 0)) = Ok true <-> a = mkVector 0 0 0)
  /\ (forall a b : Vector R,
        exists r, on a (__eq__ b) = Ok r /\ on a (__neq__ b) = Ok (negb r))
  /\ (exists a b c : Vector R,
        on a (__eq__ b) = Ok true /\ on b (__eq__ c) = Ok true
        /\ on a (__eq__ c) = Ok false).
Proof.
  assert (Hiff : forall a b : Vector R,
      on a (__eq__ b) = Ok true
      <-> within_rel_tol (x a) (x b) /\ within_rel_tol (y a) (y b)
          /\ within_rel_tol (z a) (z b)).
  { intros a b. rewrite eq_unfold, <- !math_isclose_iff. split.
    - intros H. injection H as H.
      apply andb_true_iff in H. destruct H as [H1 H].
      apply andb_true_iff in H. destruct H as [H2 H].
      apply andb_true_iff in H. destruct H as [H3 _]. auto.
    - intros [H1 [H2 H3]]. now rewrite H1, H2, H3. }
  assert (Hsym : forall p q, math_isclose p q = math_isclose q p).
  { intros p q. apply eq_true_iff_eq. rewrite !math_isclose_iff.
    unfold within_rel_tol. now rewrite Rabs_minus_sym, Rmax_comm. }
  split; [exact Hiff|]. split; [|split; [|split; [|split]]].
  - intros a. rewrite eq_unfold, !math_isclose_refl; reflexivity.
  - intros a b. rewrite !eq_unfold.
    now rewrite (Hsym (x a)), (Hsym (y a)), (Hsym (z a)).
  - intros a. rewrite Hiff. cbn [x y z]. rewrite !within_rel_tol_zero.
    destruct a as [ax ay az]. cbn [x y z]. split.
    + intros [-> [-> ->]]. reflexivity.
    + intros E. injection E as -> -> ->. auto.
  - intros a b. eexists. split; reflexivity.
  - exists (mkVector 1 0 0), (mkVector (1 + 9 / 10000000000) 0 0),
      (mkVector (1 + 18 / 10000000000) 0 0).
    assert (H0 : within_rel_tol 0 0) by now apply within_rel_tol_zero.
    split; [|split].
    + apply Hiff. cbn [x y z]. repeat split; try exact H0.
      unfold within_rel_tol.
      rewrite Rabs_minus_sym, !Rabs_pos_eq by lra.
      unfold Rmax. destruct (Rle_dec 1 (1 + 9 / 10000000000)); lra.
    + apply Hiff. cbn [x y z]. repeat split; try exact H0.
      unfold within_rel_tol.
      rewrite Rabs_minus_sym, !Rabs_pos_eq by lra.
      unfold Rmax.
      destruct (Rle_dec (1 + 9 / 10000000000) (1 + 18 / 10000000000)); lra.
    + rewrite eq_unfold. cbn [x y z]. f_equal.
      apply andb_false_iff. left. apply not_true_iff_false.
      rewrite math_isclose_iff. unfold within_rel_tol.
      rewrite Rabs_minus_sym, !Rabs_pos_eq by lra.
      unfold Rmax. destruct (Rle_dec 1 (1 + 18 / 10000000000)); lra.
Qed.

(** *** The cross product *)

(** In exact arithmetic the cross product is perpendicular to both its
    operands, vanishes on a vector and itself, changes sign when the
    operands are swapped, and its squared magnitude is
    [|a|^2 |b|^2 - (a . b)^2]. *)
Theorem cross_laws_exact (a b : Vector R) :
  exists c d na nb,
    on a (cross b) = Ok c
    /\ on c (dot a) = Ok 0 /\ on c (dot b) = Ok 0
    /\ on a (cross a) = Ok (mkVector 0 0 0)
    /\ on b (cross a) = Ok (scale (-1) c)
    /\ on a (dot b) = Ok d /\ on a magnitude_sq = Ok na
    /\ on b magnitude_sq = Ok nb
    /\ on c magnitude_sq = Ok (na * nb - d * d).
Proof.
  destruct a as [ax ay az], b as [bx b_y bz].
  eexists. exists (inner (mkVector ax ay az) (mkVector bx b_y bz)),
    (norm2 (mkVector ax ay az)), (norm2 (mkVector bx b_y bz)).
  split; [reflexivity|].
  rewrite !on_dot.
  change (on ?v magnitude_sq) with (@Ok R (norm2 v)).
  unfold on, cross. run.
  rewrite !inner_eq, !norm2_eq. unfold scale.
  cbn [x y z num_sub num_mul Exact].
  repeat split; f_equal; try ring; f_equal; ring.
Qed.

(** *** Division by a scalar *)

(** In exact arithmetic dividing by a number that is not zero divides each
    component, and undoes the multiplication by that number. *)
Theorem truediv_inverts_mul_exact (v : Vector R) (k : R) :
  k <> 0 ->
  on v (__truediv__ (PFloat k))
  = Ok (mkVector (x v / k) (y v / k) (z v / k))
  /\ (vk <-- on v (__mul__ (PFloat k));; on vk (__truediv__ (PFloat k)))%py
     = Ok v
  /\ (vk <-- on v (__truediv__ (PFloat k));; on vk (__mul__ (PFloat k)))%py
     = Ok v.
Proof.
  intros Hk.
  assert (E : forall w : Vector R,
            on w (__truediv__ (PFloat k))
            = Ok (mkVector (x w / k) (y w / k) (z w / k))).
  { intros w. unfold on, __truediv__, bind, lift, one_over.
    rewrite truediv_exact by exact Hk.
    unfold __mul__. cbn [isinstance_int isinstance_float orb operand].
    run. change (int 1) with 1. cbn [num_mul Exact].
    f_equal. f_equal; field; exact Hk. }
  split; [apply E|].
  rewrite on_mul_float, E. cbn [and_then]. rewrite E, on_mul_float.
  destruct v as [vx vy vz]. unfold scale. cbn [x y z num_mul Exact].
  split; do 2 f_equal; field; exact Hk.
Qed.

Lemma truediv_inverts_mul_exact_witness :
  on (mkVector 2 3 6) (__truediv__ (PFloat 2))
  = Ok (mkVector (2 / 2) (3 / 2) (6 / 2))
  /\ (vk <-- on (mkVector 2 3 6) (__mul__ (PFloat 2));;
      on vk (__truediv__ (PFloat 2)))%py = Ok (mkVector 2 3 6)
  /\ (vk <-- on (mkVector 2 3 6) (__truediv__ (PFloat 2));;
      on vk (__mul__ (PFloat 2)))%py = Ok (mkVector 2 3 6).
Proof. apply (truediv_inverts_mul_exact (mkVector 2 3 6) 2). lra. Defined.

End ExactArithmetic.

(** * Runs on binary64

    The same definitions evaluated on floats: the doctests of the class
    that need no trigonometry, and the inputs on which a division by zero
    is met. *)

Section Binary64Runs.

Local Open Scope float_scope.

(** The doctests of [magnitude], [__add__], [__sub__], [__mul__], [cross],
    [dot] and [__iter__]. *)
Theorem doctests_binary64 :
  let p := mkVector 2 3 6 in
  let q := mkVector 3 4 5 in
  on p magnitude = Ok 7
  /\ on p __abs__ = Ok 7
  /\ set_magnitude 14 p = Ok (tt, mkVector 4 6 12)
  /\ on p (__add__ q) = Ok (mkVector 5 7 11)
  /\ on p (__sub__ q) = Ok (mkVector (-1) (-1) 1)
  /\ on p (__mul__ (PInt 2)) = Ok (mkVector 4 6 12)
  /\ on p (__rmul__ (PInt 2)) = Ok (mkVector 4 6 12)
  /\ on p (__mul__ (PVector p)) = Raise TypeError
  /\ on p __neg__ = Ok (mkVector (-2) (-3) (-6))
  /\ on p (__truediv__ (PInt 2)) = Ok (mkVector 1 1.5 3)
  /\ on (mkVector 1 0 0) (cross (mkVector 0 1 0)) = Ok (mkVector 0 0 1)
  /\ on p (dot q) = Ok 48
  /\ on p (__matmul__ q) = Ok 48
  /\ on (mkVector 2 3 4) __iter__ = Ok [2; 3; 4].
Proof. vm_compute. repeat split. Qed.

Lemma set_magnitude_sq_negative_witness :
  set_magnitude_sq (-1) (mkVector 2 3 6) = Raise ValueError.
Proof.
  apply (set_magnitude_sq_negative (mkVector 2 3 6) (-1)).
  vm_compute. reflexivity.
Defined.


(** Against C2 as stated: [Vector(1, 2, 3) / 0.0] and [Vector(1, 2, 3) / 0]
    raise [ZeroDivisionError]; the zero vector has magnitude 0.0, and
    normalizing it or assigning its magnitude raises [ZeroDivisionError];
    so does [angle_between] of the zero vector and [Vector(1, 0, 0)] (in
    exact arithmetic, binary64 having no trigonometry here).  No call
    returns an infinity or a NaN. *)
Lemma zero_division_is_raised :
  __truediv__ (PFloat 0) (mkVector 1 2 3) = Raise ZeroDivisionError
  /\ __truediv__ (PInt 0) (mkVector 1 2 3) = Raise ZeroDivisionError
  /\ on (mkVector 0 0 0) magnitude = Ok 0
  /\ normalize (mkVector 0 0 0) = Raise ZeroDivisionError
  /\ set_magnitude 5 (mkVector 0 0 0) = Raise ZeroDivisionError
  /\ angle_between (mkVector 1 0 0)%R (mkVector 0 0 0)%R
     = Raise ZeroDivisionError.
Proof.
  repeat split; try (vm_compute; reflexivity).
  apply angle_between_zero_operand. left. exact magnitude_000.
Qed.

(** C6, where the code fails: when [random.random()] returns 0.0 at every
    call, [random_2D] and [random_3D] normalize the zero vector and raise
    [ZeroDivisionError] instead of returning a unit vector. *)
Theorem random_zero_draw_raises :
  random_2D (draws 0 0 0) = Raise ZeroDivisionError
  /\ random_3D (draws 0 0 0) = Raise ZeroDivisionError.
Proof. vm_compute. split; reflexivity. Qed.

(** Against C4 as stated: assigning -1 to the magnitude of [Vector(3, 4)]
    leaves a vector of norm 1, in exact arithmetic; on binary64, assigning
    3 to the magnitude of [Vector(1, 1)] leaves a norm below 3. *)
Lemma set_magnitude_norm_differs :
  (exists v',
      set_magnitude (-1)%R (mkVector 3 4 0)%R = Ok (tt, v')
      /\ v' = mkVector (-3 / 5)%R (-4 / 5)%R 0%R
      /\ on v' magnitude = Ok 1%R
      /\ on v' magnitude <> Ok (-1)%R)
  /\ (exists v',
      set_magnitude 3 (mkVector 1 1 0) = Ok (tt, v')
      /\ on v' magnitude = Ok 0x1.7ffffffffffffp+1
      /\ (0x1.7ffffffffffffp+1 =? 3) = false).
Proof.
  split; [exact set_magnitude_negative|].
  eexists. vm_compute. repeat split.
Qed.

(** Against C10 as stated: on binary64, rotating [Vector(1, 1)] by
    [math.pi / 4] (the doctest of [rotate]) changes the magnitude in its
    last bit, from 1.4142135623730951 to 1.414213562373095. *)
Lemma rotate_rounds_magnitude :
  exists v',
    @rotate float Binary64 TrigAtQuarterPi quarter_pi (mkVector 1 1 0)
    = Ok (tt, v')
    /\ on (mkVector 1 1 0) magnitude = Ok 0x1.6a09e667f3bcdp+0
    /\ on v' magnitude = Ok 0x1.6a09e667f3bccp+0
    /\ (0x1.6a09e667f3bccp+0 =? 0x1.6a09e667f3bcdp+0) = false.
Proof. eexists. vm_compute. repeat split. Qed.

(** Against C5 as stated: on binary64, [limit(upper_limit=1)] on
    [Vector(1, 1)], whose magnitude is above 1, leaves a magnitude below
    1. *)
Lemma limit_rounds_below_one :
  exists m v',
    on (mkVector 1 1 0) magnitude = Ok m /\ (1 <? m) = true
    /\ limit (Some 1) None (mkVector 1 1 0) = Ok (tt, v')
    /\ on v' magnitude = Ok 0x1.fffffffffffffp-1
    /\ (0x1.fffffffffffffp-1 =? 1) = false.
Proof. do 2 eexists. vm_compute. repeat split. Qed.


(** [Vector(1, 1, 1).angle_between(Vector(1, 1, 1))]: the quotient is
    [3 / (sqrt(3) * sqrt(3))], which rounds to [1.0000000000000002]. *)
Lemma angle_between_domain_error_witness :
  @angle_between float Binary64 TrigAtQuarterPi
    (mkVector 1 1 1) (mkVector 1 1 1)
  = Raise ValueError.
Proof.
  apply (@angle_between_domain_error float Binary64 TrigAtQuarterPi
           (mkVector 1 1 1) (mkVector 1 1 1)
           3 0x1.bb67ae8584caap+0 0x1.bb67ae8584caap+0);
    vm_compute; reflexivity.
Defined.

End Binary64Runs.

(** * The dot and cross products on binary64 *)

Section Binary64Cross.

(** [==] on floats is reflexive away from NaN, and blind to the sign of
    zero. *)
Lemma SFeqb_refl (f : spec_float) : f <> S754_nan -> SFeqb f f = true.
Proof.
  destruct f as [s|s| |s m e]; intros H; try reflexivity.
  - now destruct s.
  - now elim H.
  - unfold SFeqb, SFcompare.
    destruct s; rewrite Z.compare_refl, Pos.compare_cont_refl; reflexivity.
Qed.

Lemma SFeqb_zero (s s' : bool) : SFeqb (S754_zero s) (S754_zero s') = true.
Proof. reflexivity. Qed.

(** Multiplication commutes. *)
Lemma SFmul_comm (f g : spec_float) :
  SFmul prec emax f g = SFmul prec emax g f.
Proof.
  destruct f as [s|s| |s m e], g as [s'|s'| |s' m' e']; cbn [SFmul];
    try reflexivity; try (now rewrite xorb_comm).
  now rewrite xorb_comm, Pos.mul_comm, Z.add_comm.
Qed.

Lemma float_mul_comm (a b : float) : PrimFloat.mul a b = PrimFloat.mul b a.
Proof.
  apply Prim2SF_inj. rewrite !mul_spec. apply SFmul_comm.
Qed.

(** On binary64 [a.dot(b)] and [b.dot(a)] are the same float. *)
Theorem dot_commutative_binary64 (a b : Vector float) :
  on a (dot b) = on b (dot a).
Proof.
  unfold on, dot. run. cbn [num_mul num_add Binary64]. f_equal.
  now rewrite (float_mul_comm (x a)), (float_mul_comm (y a)),
    (float_mul_comm (z a)).
Qed.

(** The sign of a rounded value is the sign given to the rounding. *)
Lemma binary_round_aux_sign (s : bool) (m e : Z) (l : location) :
  binary_round_aux prec emax (negb s) m e l =
  SFopp (binary_round_aux prec emax s m e l).
Proof.
  unfold binary_round_aux.
  destruct (shr_fexp prec emax m e l) as [mrs' e'].
  destruct (shr_fexp prec emax _ e' loc_Exact) as [mrs'' e''].
  destruct (shr_m mrs''); try reflexivity.
  destruct (Z.leb e'' _); reflexivity.
Qed.

Lemma binary_round_sign (s : bool) (m : positive) (e : Z) :
  binary_round prec emax (negb s) m e =
  SFopp (binary_round prec emax s m e).
Proof.
  unfold binary_round. destruct (shl_align _ _ _) as [mz ez].
  apply binary_round_aux_sign.
Qed.

Lemma SFopp_involutive (f : spec_float) : SFopp (SFopp f) = f.
Proof. destruct f; cbn; now rewrite ?negb_involutive. Qed.

Lemma binary_normalize_opp (k e : Z) :
  SFsame (binary_normalize prec emax k e false)
         (SFopp (binary_normalize prec emax (- k) e false)).
Proof.
  destruct k as [|p|p]; cbn [Z.opp binary_normalize].
  - right. now exists false, true.
  - left. change true with (negb false).
    now rewrite binary_round_sign, SFopp_involutive.
  - left. change true with (negb false).
    now rewrite binary_round_sign.
Qed.

(** [f - g] is the opposite of [g - f], up to the sign of zero. *)
Lemma SFsub_antisym (f g : spec_float) :
  SFsame (SFsub prec emax f g) (SFopp (SFsub prec emax g f)).
Proof.
  destruct f as [s|s| |s m e], g as [s'|s'| |s' m' e'];
    try (destruct s, s'; cbn; (left; reflexivity) || (right; eauto; fail));
    try (destruct s; cbn; (left; reflexivity) || (right; eauto; fail));
    try (destruct s'; cbn; (left; reflexivity) || (right; eauto; fail));
    try (left; reflexivity).
  cbn [SFsub]. rewrite (Z.min_comm e' e).
  set (A := cond_Zopp s _). set (B := cond_Zopp s' _).
  replace (B - A)%Z with (- (A - B))%Z by ring.
  apply binary_normalize_opp.
Qed.

Lemma SFsame_eqb (f g : spec_float) :
  SFsame f g -> f <> S754_nan -> SFeqb f g = true.
Proof.
  intros [E|[s [s' [E1 E2]]]] Hn; subst.
  - now apply SFeqb_refl.
  - reflexivity.
Qed.

(** Multiplying by the float -1.0 is taking the opposite: the product of
    the mantissa by 2^52 is shifted back by 52 bits, exactly. *)
Lemma Prim2SF_minus_one :
  Prim2SF (float_of_Z (-1)) = S754_finite true 4503599627370496 (-52).
Proof. vm_compute. reflexivity. Qed.

Lemma shr_52 (m : positive) :
  SpecFloat.iter_pos shr_1 52
    (Build_shr_record (Zpos (4503599627370496 * m)) false false) =
  Build_shr_record (Zpos m) false false.
Proof. reflexivity. Qed.

Lemma digits2_pos_shifted (m : positive) :
  Zpos (digits2_pos (4503599627370496 * m)) = (Zpos (digits2_pos m) + 52)%Z.
Proof. cbn. lia. Qed.

Lemma SFmul_minus_one (f : spec_float) :
  valid_binary f = true ->
  SFmul prec emax f (S754_finite true 4503599627370496 (-52)) = SFopp f.
Proof.
  destruct f as [s|s| |s m e]; cbn [SFmul SFopp valid_binary];
    intros Hv; try reflexivity; try (now rewrite xorb_true_r).
  unfold bounded, canonical_mantissa in Hv.
  apply andb_prop in Hv. destruct Hv as [Hc Hb].
  apply Z.eqb_eq in Hc.
  rewrite xorb_true_r, Pos.mul_comm.
  unfold binary_round_aux, shr_fexp at 1.
  unfold Zdigits2. rewrite digits2_pos_shifted.
  replace (Zpos (digits2_pos m) + 52 + (e + -52))%Z
    with (Zpos (digits2_pos m) + e)%Z by ring.
  rewrite Hc.
  replace (e - (e + -52))%Z with 52%Z by ring.
  unfold shr_record_of_loc, shr. rewrite shr_52.
  cbn [shr_m loc_of_shr_record round_nearest_even].
  replace (e + -52 + 52)%Z with e by ring.
  unfold shr_fexp, Zdigits2. rewrite Hc, Z.sub_diag.
  cbn [shr shr_record_of_loc shr_m]. now rewrite Hb.
Qed.

Lemma float_mul_minus_one (d : float) :
  Prim2SF (PrimFloat.mul d (float_of_Z (-1))) = SFopp (Prim2SF d).
Proof.
  rewrite mul_spec, Prim2SF_minus_one.
  apply SFmul_minus_one, Prim2SF_valid.
Qed.

Lemma float_sub_antisym (p q : float) :
  PrimFloat.eqb (PrimFloat.sub p q) (PrimFloat.sub p q) = true ->
  PrimFloat.eqb (PrimFloat.sub p q)
                (PrimFloat.mul (PrimFloat.sub q p) (float_of_Z (-1))) = true.
Proof.
  rewrite !eqb_spec, float_mul_minus_one, !sub_spec. intros Hn.
  apply SFsame_eqb; [apply SFsub_antisym|].
  intros E. rewrite E in Hn. discriminate Hn.
Qed.

(** C9, as the code has it: on binary64, for all vectors [a] and [b] such
    that no component [c] of [a.cross(b)] is a NaN ([c == c]),
    [a.cross(b) == -b.cross(a)] evaluates to [True], with [==] the
    [__eq__] of the class and [-] its [__neg__]. *)
Theorem cross_anticommutative_binary64 (a b ab : Vector float) :
  on a (cross b) = Ok ab ->
  PrimFloat.eqb (x ab) (x ab) = true ->
  PrimFloat.eqb (y ab) (y ab) = true ->
  PrimFloat.eqb (z ab) (z ab) = true ->
  cross_anticommutes a b = Ok true.
Proof.
  intros Hab Hx Hy Hz.
  unfold on, cross in Hab. run. cbv beta iota in Hab.
  injection Hab as Hab. subst ab. cbn [x y z] in Hx, Hy, Hz.
  unfold cross_anticommutes, on, cross, __neg__, __rmul__, __mul__, __eq__.
  cbn [isinstance_int isinstance_float orb operand].
  run. cbn [x y z]. unfold math_isclose, int.
  cbn [num_eqb num_sub num_mul num_of_Z Binary64] in *.
  rewrite (float_mul_comm (y b) (z a)), (float_mul_comm (z b) (y a)).
  rewrite (float_mul_comm (z b) (x a)), (float_mul_comm (x b) (z a)).
  rewrite (float_mul_comm (x b) (y a)), (float_mul_comm (y b) (x a)).
  rewrite !float_sub_antisym by assumption. reflexivity.
Qed.

Lemma cross_anticommutative_binary64_witness :
  cross_anticommutes (mkVector 1 2 3)%float (mkVector 4 5 6)%float = Ok true.
Proof.
  apply (cross_anticommutative_binary64
           (mkVector 1 2 3)%float (mkVector 4 5 6)%float
           (mkVector (-3) 6 (-3))%float);
    vm_compute; reflexivity.
Defined.

(** Against C9 as stated: with [a = Vector(0, 2.0**600, 2.0**600)] the
    products overflow, the first component of [a.cross(a)] is
    [inf - inf], a NaN, and [a.cross(a) == -a.cross(a)] is [False]. *)
Lemma cross_of_overflow_not_equal :
  on (mkVector 0 0x1p+600 0x1p+600)%float
     (cross (mkVector 0 0x1p+600 0x1p+600)%float)
  = Ok (mkVector nan 0 0)%float
  /\ cross_anticommutes (mkVector 0 0x1p+600 0x1p+600)%float
                        (mkVector 0 0x1p+600 0x1p+600)%float
     = Ok false.
Proof. vm_compute. split; reflexivity. Qed.

End Binary64Cross.

(** * More properties that hold on binary64 as they stand *)

Section Binary64Algebra.

Local Open Scope float_scope.

(** *** Scaling by -1 and by 1 *)

Lemma float_neg_neg (d : float) :
  PrimFloat.mul (PrimFloat.mul d (float_of_Z (-1))) (float_of_Z (-1)) = d.
Proof.
  apply Prim2SF_inj. rewrite !float_mul_minus_one. apply SFopp_involutive.
Qed.

Lemma neg_unfold (v : Vector float) :
  on v __neg__ =
  Ok (mkVector (PrimFloat.mul (x v) (float_of_Z (-1)))
               (PrimFloat.mul (y v) (float_of_Z (-1)))
               (PrimFloat.mul (z v) (float_of_Z (-1)))).
Proof. reflexivity. Qed.

(** On binary64 [-v] is exact: each component has its sign flipped and
    nothing else changed (zeros, infinities and NaN included), and [-(-v)]
    is [v], bit for bit. *)
Theorem neg_is_exact_binary64 (v : Vector float) :
  exists nv,
    on v __neg__ = Ok nv
    /\ Prim2SF (x nv) = SFopp (Prim2SF (x v))
    /\ Prim2SF (y nv) = SFopp (Prim2SF (y v))
    /\ Prim2SF (z nv) = SFopp (Prim2SF (z v))
    /\ on nv __neg__ = Ok v.
Proof.
  eexists. split; [apply neg_unfold|]. cbn [x y z].
  rewrite !float_mul_minus_one. repeat split.
  rewrite neg_unfold. cbn [x y z]. rewrite !float_neg_neg.
  now destruct v.
Qed.

Lemma Prim2SF_one :
  Prim2SF (float_of_Z 1) = S754_finite false 4503599627370496 (-52).
Proof. vm_compute. reflexivity. Qed.

Lemma SFmul_one (f : spec_float) :
  valid_binary f = true ->
  SFmul prec emax f (S754_finite false 4503599627370496 (-52)) = f.
Proof.
  destruct f as [s|s| |s m e]; cbn [SFmul valid_binary];
    intros Hv; try reflexivity; try (now rewrite xorb_false_r).
  unfold bounded, canonical_mantissa in Hv.
  apply andb_prop in Hv. destruct Hv as [Hc Hb].
  apply Z.eqb_eq in Hc.
  rewrite xorb_false_r, Pos.mul_comm.
  unfold binary_round_aux, shr_fexp at 1.
  unfold Zdigits2. rewrite digits2_pos_shifted.
  replace (Zpos (digits2_pos m) + 52 + (e + -52))%Z
    with (Zpos (digits2_pos m) + e)%Z by ring.
  rewrite Hc.
  replace (e - (e + -52))%Z with 52%Z by ring.
  unfold shr_record_of_loc, shr. rewrite shr_52.
  cbn [shr_m loc_of_shr_record round_nearest_even].
  replace (e + -52 + 52)%Z with e by ring.
  unfold shr_fexp, Zdigits2. rewrite Hc, Z.sub_diag.
  cbn [shr shr_record_of_loc shr_m]. now rewrite Hb.
Qed.

Lemma float_mul_one (d : float) : PrimFloat.mul d (float_of_Z 1) = d.
Proof.
  apply Prim2SF_inj. rewrite mul_spec, Prim2SF_one.
  apply SFmul_one, Prim2SF_valid.
Qed.

(** On binary64, multiplying by 1, by [True] or by 1.0, and dividing by
    1, return a vector with the components of [v], bit for bit. *)
Theorem mul_by_one_binary64 (v : Vector float) :
  on v (__mul__ (PInt 1)) = Ok v
  /\ on v (__rmul__ (PInt 1)) = Ok v
  /\ on v (__mul__ (PBool true)) = Ok v
  /\ on v (__mul__ (PFloat 1)) = Ok v
  /\ on v (__truediv__ (PInt 1)) = Ok v
  /\ on v (__truediv__ (PFloat 1)) = Ok v.
Proof.
  assert (E : on v (__mul__ (PInt 1)) = Ok v).
  { unfold on, __mul__. cbn [isinstance_int isinstance_float orb operand].
    run. unfold int. cbn [num_mul num_of_Z Binary64].
    rewrite !float_mul_one. now destruct v. }
  repeat split; exact E.
Qed.

(** *** Addition *)

Lemma SFadd_comm (f g : spec_float) :
  SFadd prec emax f g = SFadd prec emax g f.
Proof.
  destruct f as [s|s| |s m e], g as [s'|s'| |s' m' e'];
    try reflexivity; try (now destruct s, s').
  cbn [SFadd]. now rewrite (Z.min_comm e' e), Z.add_comm.
Qed.

Lemma float_add_comm (a b : float) : PrimFloat.add a b = PrimFloat.add b a.
Proof. apply Prim2SF_inj. rewrite !add_spec. apply SFadd_comm. Qed.

(** On binary64 [a + b] and [b + a] are the same vector, bit for bit. *)
Theorem add_commutative_binary64 (a b : Vector float) :
  on a (__add__ b) = on b (__add__ a).
Proof.
  unfold on, __add__. run. cbn [num_add Binary64]. do 2 f_equal;
    apply float_add_comm.
Qed.

(** *** The cross product of a vector and itself *)

Lemma SFsub_diag (f : spec_float) :
  SFsub prec emax f f = S754_zero false \/ SFsub prec emax f f = S754_nan.
Proof.
  destruct f as [s|s| |s m e]; cbn [SFsub].
  - left. now destruct s.
  - right. now destruct s.
  - now right.
  - left. now rewrite Z.sub_diag.
Qed.

Lemma float_sub_diag (p : float) : zero_or_nan (PrimFloat.sub p p).
Proof.
  destruct (SFsub_diag (Prim2SF p)) as [E|E]; [left|right];
    apply Prim2SF_inj; rewrite sub_spec; exact E.
Qed.

(** On binary64 each component of [a.cross(a)] is [0.0], or a NaN when the
    products of the components overflow or are NaN themselves. *)
Theorem cross_self_binary64 (a : Vector float) :
  exists c,
    on a (cross a) = Ok c
    /\ zero_or_nan (x c) /\ zero_or_nan (y c) /\ zero_or_nan (z c).
Proof.
  eexists. split; [reflexivity|]. cbn [x y z num_sub num_mul Binary64].
  rewrite (float_mul_comm (z a) (y a)), (float_mul_comm (x a) (z a)),
    (float_mul_comm (y a) (x a)).
  repeat split; apply float_sub_diag.
Qed.

(** *** Equality *)

Lemma not_eqb_self_nan (a : float) : PrimFloat.eqb a a = false -> a = nan.
Proof.
  rewrite eqb_spec. intros H. apply Prim2SF_inj.
  change (Prim2SF nan) with S754_nan.
  destruct (Prim2SF a) as [s|s| |s m e] eqn:E; try reflexivity;
    rewrite SFeqb_refl in H by discriminate; discriminate H.
Qed.

Lemma isclose_self (a : float) : math_isclose a a = PrimFloat.eqb a a.
Proof.
  destruct (PrimFloat.eqb a a) eqn:E.
  - unfold math_isclose. cbn [num_eqb Binary64]. now rewrite E.
  - apply not_eqb_self_nan in E. subst a. vm_compute. reflexivity.
Qed.

Lemma SFeqb_sym (f g : spec_float) : SFeqb f g = SFeqb g f.
Proof.
  unfold SFeqb.
  destruct f as [s|s| |s m e], g as [s'|s'| |s' m' e'];
    try reflexivity; try (now destruct s); try (now destruct s');
    try (now destruct s, s').
  cbn [SFcompare].
  change (PosDef.Pos.compare_cont Eq m m') with (Pos.compare m m').
  change (PosDef.Pos.compare_cont Eq m' m) with (Pos.compare m' m).
  rewrite (Z.compare_antisym e e'), (Pos.compare_antisym m m').
  destruct s, s'; try reflexivity;
    destruct (e ?= e')%Z; cbn [CompOpp]; try reflexivity;
    destruct (m ?= m')%positive; reflexivity.
Qed.

Lemma SFabs_opp (f : spec_float) : SFabs (SFopp f) = SFabs f.
Proof. now destruct f. Qed.

Lemma SFabs_same (f g : spec_float) : SFsame f g -> SFabs f = SFabs g.
Proof.
  intros [E|[s [s' [E1 E2]]]]; subst; reflexivity.
Qed.

Lemma float_abs_sub_sym (a b : float) :
  PrimFloat.abs (PrimFloat.sub b a) = PrimFloat.abs (PrimFloat.sub a b).
Proof.
  apply Prim2SF_inj. rewrite !abs_spec, !sub_spec. unfold SF64sub.
  rewrite (SFabs_same _ _ (SFsub_antisym (Prim2SF b) (Prim2SF a))).
  apply SFabs_opp.
Qed.

Lemma float_eqb_sym (a b : float) : PrimFloat.eqb a b = PrimFloat.eqb b a.
Proof. rewrite !eqb_spec. apply SFeqb_sym. Qed.

Lemma isclose_sym (a b : float) : math_isclose a b = math_isclose b a.
Proof.
  unfold math_isclose.
  cbn [num_eqb num_is_inf num_abs num_sub num_leb num_mul Binary64].
  rewrite (float_eqb_sym b a), (float_abs_sub_sym b a).
  rewrite (orb_comm (PrimFloat.eqb (PrimFloat.abs b) infinity)).
  destruct (PrimFloat.eqb a b); [reflexivity|].
  destruct (_ || _); [reflexivity|].
  now rewrite (orb_comm (PrimFloat.leb _ (PrimFloat.abs (PrimFloat.mul _ a)))).
Qed.

Lemma eq_unfold_binary64 (a b : Vector float) :
  on a (__eq__ b) =
  Ok (math_isclose (x a) (x b)
      && (math_isclose (y a) (y b) && (math_isclose (z a) (z b) && true))).
Proof. reflexivity. Qed.

(** On binary64 [v == v] is [True] exactly when no component of [v] is a
    NaN, and [a == b] and [b == a] are the same for all vectors. *)
Theorem eq_reflexive_symmetric_binary64 (a b : Vector float) :
  on a (__eq__ a)
  = Ok (negb (is_nan (x a) || is_nan (y a) || is_nan (z a)))
  /\ on a (__eq__ b) = on b (__eq__ a).
Proof.
  rewrite !eq_unfold_binary64. split.
  - rewrite !isclose_self. unfold is_nan. f_equal.
    destruct (PrimFloat.eqb (x a) (x a)), (PrimFloat.eqb (y a) (y a)),
      (PrimFloat.eqb (z a) (z a)); reflexivity.
  - now rewrite (isclose_sym (x a)), (isclose_sym (y a)),
      (isclose_sym (z a)).
Qed.

(** *** The magnitude never raises *)

Lemma binary_round_aux_not_negative (m e : Z) (l : location) :
  SFnot_negative (binary_round_aux prec emax false m e l).
Proof.
  unfold binary_round_aux.
  destruct (shr_fexp prec emax m e l) as [mrs' e'].
  destruct (shr_fexp prec emax _ e' loc_Exact) as [mrs'' e''].
  destruct (shr_m mrs''); cbn; trivial.
  destruct (Z.leb e'' _); reflexivity.
Qed.

Lemma SFmul_self_not_negative (f : spec_float) :
  SFnot_negative (SFmul prec emax f f).
Proof.
  destruct f as [s|s| |s m e]; cbn [SFmul SFnot_negative]; trivial;
    try apply xorb_nilpotent.
  rewrite xorb_nilpotent. apply binary_round_aux_not_negative.
Qed.

Lemma SFadd_not_negative (f g : spec_float) :
  SFnot_negative f -> SFnot_negative g ->
  SFnot_negative (SFadd prec emax f g).
Proof.
  destruct f as [s|s| |s m e], g as [s'|s'| |s' m' e'];
    cbn [SFnot_negative]; intros Hf Hg; subst;
    try (cbn; trivial; fail); try (destruct s; cbn; trivial; fail);
    try (destruct s'; cbn; trivial; fail);
    try (destruct s, s'; cbn; trivial; fail).
  cbn [SFadd cond_Zopp]. cbn [Z.add binary_normalize].
  unfold binary_round. destruct (shl_align _ _ _) as [mz ez].
  apply binary_round_aux_not_negative.
Qed.

Lemma not_negative_ltb (d : float) :
  SFnot_negative (Prim2SF d) -> PrimFloat.ltb d (float_of_Z 0) = false.
Proof.
  rewrite ltb_spec. change (Prim2SF (float_of_Z 0)) with (S754_zero false).
  destruct (Prim2SF d) as [s|s| |s m e]; cbn [SFnot_negative];
    intros H; subst; reflexivity.
Qed.

Lemma inner_self_not_negative (v : Vector float) :
  SFnot_negative (Prim2SF (inner v v)).
Proof.
  unfold inner, int. cbn [num_add num_mul num_of_Z Binary64].
  rewrite !add_spec, !mul_spec.
  repeat apply SFadd_not_negative; try apply SFmul_self_not_negative.
  exact I.
Qed.

Lemma magnitude_binary64 (v : Vector float) :
  magnitude v = Ok (PrimFloat.sqrt (inner v v), v).
Proof.
  unfold magnitude, bind, this. rewrite dot_inner.
  unfold lift, math_sqrt. cbn [num_ltb num_sqrt Binary64].
  unfold int. cbn [num_of_Z Binary64].
  now rewrite not_negative_ltb by apply inner_self_not_negative.
Qed.

(** On binary64 [magnitude] never raises: the dot product of a vector and
    itself is never negative, so [math.sqrt] has no domain error to
    report.  Assigning [magnitude] therefore raises nothing but
    [ZeroDivisionError], and does so exactly when the magnitude is zero. *)
Theorem magnitude_never_raises_binary64 (v : Vector float) :
  exists m,
    on v magnitude = Ok m /\ on v __abs__ = Ok m
    /\ forall new,
        set_magnitude new v =
        if PrimFloat.eqb m 0 then Raise ZeroDivisionError
        else Ok (tt, mkVector (PrimFloat.mul (PrimFloat.div (x v) m) new)
                             (PrimFloat.mul (PrimFloat.div (y v) m) new)
                             (PrimFloat.mul (PrimFloat.div (z v) m) new)).
Proof.
  exists (PrimFloat.sqrt (inner v v)).
  assert (E : on v magnitude = Ok (PrimFloat.sqrt (inner v v)))
    by (unfold on; now rewrite magnitude_binary64).
  split; [exact E|]. split; [exact E|].
  intros new. unfold set_magnitude, bind at 1. rewrite magnitude_binary64.
  set (m := PrimFloat.sqrt (inner v v)).
  run. unfold truediv. cbn [num_eqb num_div num_mul Binary64 x y z].
  change (int 0) with 0%float.
  destruct (PrimFloat.eqb m 0); reflexivity.
Qed.

End Binary64Algebra.
